(** * Online threshold knapsack against the fractional LP optimum

    Shallow embedding of [part2.ipynb]: the [Item] record, [online_knapsack],
    [offline_knapsack] and the body of the experiment loop of [test].

    Numbers.  The notebook computes with numpy [float64].  They are idealised
    here as real numbers extended with the three IEEE special values that
    numpy produces instead of raising ([inf], [-inf], [nan]): rounding and
    overflow are not modelled, a zero is the positive zero (the module
    [Binary64] gives the bit-level version of the parts where rounding or
    overflow changes the outcome).  The parameters
    [p_min], [p_max], [max_weight] are plain Python numbers at every call of
    the notebook, so [p_max / p_min] is Python's division, which raises
    [ZeroDivisionError] on a zero divisor; every other operation has a numpy
    operand and follows numpy. *)

From Corelib Require Import PrimFloat.
From Stdlib Require Import Reals Lra Lia List Bool Permutation Sorted.
Import ListNotations.

Open Scope R_scope.

(** ** numpy scalars *)

Module Np.

Inductive num : Type :=
| Fin (r : R)
| PInf
| NInf
| NaN.

Definition Rltb (a b : R) : bool := if Rlt_dec a b then true else false.
Definition Rleb (a b : R) : bool := if Rle_dec a b then true else false.

Definition neg (a : num) : num :=
  match a with
  | Fin x => Fin (- x)
  | PInf => NInf
  | NInf => PInf
  | NaN => NaN
  end.

Definition add (a b : num) : num :=
  match a, b with
  | NaN, _ | _, NaN => NaN
  | Fin x, Fin y => Fin (x + y)
  | PInf, NInf | NInf, PInf => NaN
  | PInf, _ | _, PInf => PInf
  | NInf, _ | _, NInf => NInf
  end.

Definition sub (a b : num) : num := add a (neg b).

(** An infinity of sign [pos] multiplied by the finite [r]. *)
Definition inf_times (pos : bool) (r : R) : num :=
  if Rltb 0 r then (if pos then PInf else NInf)
  else if Rltb r 0 then (if pos then NInf else PInf)
  else NaN.

Definition mul (a b : num) : num :=
  match a, b with
  | NaN, _ | _, NaN => NaN
  | Fin x, Fin y => Fin (x * y)
  | PInf, Fin r | Fin r, PInf => inf_times true r
  | NInf, Fin r | Fin r, NInf => inf_times false r
  | PInf, PInf | NInf, NInf => PInf
  | PInf, NInf | NInf, PInf => NInf
  end.

(** numpy's true division: a zero divisor gives [inf], [-inf] or [nan] (with
    a warning), never an exception. *)
Definition div (a b : num) : num :=
  match a, b with
  | NaN, _ | _, NaN => NaN
  | Fin x, Fin y =>
      if Req_dec_T y 0
      then (if Rltb 0 x then PInf else if Rltb x 0 then NInf else NaN)
      else Fin (x / y)
  | Fin _, PInf | Fin _, NInf => Fin 0
  | PInf, Fin r => if Rltb r 0 then NInf else PInf
  | NInf, Fin r => if Rltb r 0 then PInf else NInf
  | PInf, PInf | PInf, NInf | NInf, PInf | NInf, NInf => NaN
  end.

(** [np.log] *)
Definition log (a : num) : num :=
  match a with
  | Fin x => if Rltb 0 x then Fin (ln x) else if Rltb x 0 then NaN else NInf
  | PInf => PInf
  | NInf => NaN
  | NaN => NaN
  end.

(** [np.exp] *)
Definition exp (a : num) : num :=
  match a with
  | Fin x => Fin (Rtrigo_def.exp x)
  | PInf => PInf
  | NInf => Fin 0
  | NaN => NaN
  end.

(** Comparisons: every comparison with [nan] is false. *)
Definition ltb (a b : num) : bool :=
  match a, b with
  | NaN, _ | _, NaN => false
  | Fin x, Fin y => Rltb x y
  | NInf, NInf => false
  | NInf, _ => true
  | _, NInf => false
  | PInf, _ => false
  | Fin _, PInf => true
  end.

Definition leb (a b : num) : bool :=
  match a, b with
  | NaN, _ | _, NaN => false
  | Fin x, Fin y => Rleb x y
  | NInf, _ => true
  | _, PInf => true
  | _, NInf => false
  | PInf, _ => false
  end.

Definition gtb (a b : num) : bool := ltb b a.

End Np.

Import Np.

(** ** Python exceptions *)

Inductive exn : Type :=
| ZeroDivisionError
| ValueError
| TypeError.

Inductive result (A : Type) : Type :=
| Ok (a : A)
| Raise (e : exn).

Arguments Ok {A} a.
Arguments Raise {A} e.

Definition bind {A B : Type} (m : result A) (k : A -> result B) : result B :=
  match m with
  | Ok a => k a
  | Raise e => Raise e
  end.

Notation "x <- m ;; k" := (bind m (fun x => k))
  (at level 61, m at next level, right associativity).

(** Python's [a / b] on two Python numbers. *)
Definition py_div (a b : R) : result R :=
  if Req_dec_T b 0 then Raise ZeroDivisionError else Ok (a / b).

(** ** Items *)

(** [Item = namedtuple('Item', ('value', 'weight', 'ratio'))] *)
Record Item : Type := mkItem { value : num; weight : num; ratio : num }.

(** ** The online threshold algorithm *)

(** The loop state of [online_knapsack]: the variables [y] and [total_value]. *)
Record state : Type := mkState { y : num; total_value : num }.

Definition init : state := mkState (Fin 0) (Fin 0).

(** [beta = max_weight / (1 + np.log(q))], with [q] the quotient
    [p_max / p_min] already computed. *)
Definition beta_of (q max_weight : R) : num :=
  div (Fin max_weight) (add (Fin 1) (log (Fin q))).

(** [p_min if y < beta else p_min * np.exp(y/beta-1)] *)
Definition threshold (p_min : R) (beta y : num) : num :=
  if ltb y beta then Fin p_min
  else mul (Fin p_min) (exp (sub (div y beta) (Fin 1))).

(** [item.ratio > threshold and y + item.weight <= max_weight] *)
Definition accepts (p_min max_weight : R) (beta : num) (st : state) (item : Item) : bool :=
  gtb (ratio item) (threshold p_min beta (y st))
  && leb (add (y st) (weight item)) (Fin max_weight).

(** One iteration of the [for item in items] loop. *)
Definition step (p_min max_weight : R) (beta : num) (st : state) (item : Item) : state :=
  if accepts p_min max_weight beta st item
  then mkState (add (y st) (weight item)) (add (total_value st) (value item))
  else st.

Definition run (p_min max_weight : R) (beta : num) (items : list Item) (st : state) : state :=
  fold_left (step p_min max_weight beta) items st.

Definition online_knapsack (items : list Item) (p_min p_max max_weight : R) : result num :=
  q <- py_div p_max p_min ;;
  Ok (total_value (run p_min max_weight (beta_of q max_weight) items init)).

(** The states after each iteration of the loop, in order. *)
Fixpoint states (p_min max_weight : R) (beta : num) (items : list Item) (st : state)
  : list state :=
  match items with
  | [] => []
  | item :: rest =>
      let st' := step p_min max_weight beta st item in
      st' :: states p_min max_weight beta rest st'
  end.

(** The threshold computed at each iteration, in order. *)
Fixpoint thresholds (p_min max_weight : R) (beta : num) (items : list Item) (st : state)
  : list num :=
  match items with
  | [] => []
  | item :: rest =>
      threshold p_min beta (y st)
      :: thresholds p_min max_weight beta rest (step p_min max_weight beta st item)
  end.

(** The outcome of the acceptance test at each iteration, in order. *)
Fixpoint decisions (p_min max_weight : R) (beta : num) (items : list Item) (st : state)
  : list bool :=
  match items with
  | [] => []
  | item :: rest =>
      accepts p_min max_weight beta st item
      :: decisions p_min max_weight beta rest (step p_min max_weight beta st item)
  end.

(** ** The offline optimizer *)

Module LP.

(** [a . b] on vectors of reals. *)
Definition dot (a b : list R) : R :=
  fold_right Rplus 0 (map (fun p => fst p * snd p) (combine a b)).

(** [bounds]: one [(lo, hi)] pair per variable. *)
Definition in_bounds (bounds : list (R * R)) (x : list R) : Prop :=
  Forall2 (fun bd xi => fst bd <= xi <= snd bd) bounds x.

(** [A_ub @ x <= b_ub], row by row. *)
Definition feasible (A_ub : list (list R)) (b_ub : list R) (bounds : list (R * R))
    (x : list R) : Prop :=
  in_bounds bounds x /\ Forall2 (fun row b => dot row x <= b) A_ub b_ub.

(** [f] is the least value of [c . x] over the feasible points, and is
    attained. *)
Definition minimum (c : list R) (A_ub : list (list R)) (b_ub : list R)
    (bounds : list (R * R)) (f : R) : Prop :=
  (exists x, feasible A_ub b_ub bounds x /\ dot c x = f)
  /\ (forall x, feasible A_ub b_ub bounds x -> f <= dot c x).

(** [scipy.optimize.linprog(c, A_ub, b_ub, bounds, method="HiGHS")] is
    external to the notebook.  It is modelled by its contract: on arrays of
    finite numbers, with at least one variable, for which the program has an
    optimum, the field [fun] of the result is the minimum of [c . x] (the
    exact minimum: the tolerance of the solver is not modelled).
    [linprog c A_ub b_ub bounds f] holds when the call returns with
    [fun = f]. *)
Inductive linprog (c : list num) (A_ub : list (list num)) (b_ub : list num)
    (bounds : list (R * R)) : num -> Prop :=
| linprog_optimal (c' : list R) (A' : list (list R)) (b' : list R) (f : R) :
    c = map Fin c' ->
    A_ub = map (map Fin) A' ->
    b_ub = map Fin b' ->
    minimum c' A' b' bounds f ->
    c' <> [] ->
    linprog c A_ub b_ub bounds (Fin f).

(** Every outcome of the call on arrays of finite numbers: a [ValueError]
    when there is no variable ([len(c) == 0]), the optimum, or a result
    whose [fun] is [None] when the program is infeasible. *)
Inductive linprog_result (c : list num) (A_ub : list (list num)) (b_ub : list num)
    (bounds : list (R * R)) : result (option num) -> Prop :=
| linprog_no_variable :
    c = [] ->
    linprog_result c A_ub b_ub bounds (Raise ValueError)
| linprog_success (f : num) :
    linprog c A_ub b_ub bounds f ->
    linprog_result c A_ub b_ub bounds (Ok (Some f))
| linprog_infeasible (c' : list R) (A' : list (list R)) (b' : list R) :
    c = map Fin c' ->
    A_ub = map (map Fin) A' ->
    b_ub = map Fin b' ->
    c' <> [] ->
    (forall x, ~ feasible A' b' bounds x) ->
    linprog_result c A_ub b_ub bounds (Ok None).

End LP.

(** [offline_knapsack items max_weight] returns [result.fun]. *)
Definition offline_knapsack (items : list Item) (max_weight : R) (res : num) : Prop :=
  let objective := map (fun item => neg (value item)) items in
  let constraints := [map (fun item => weight item) items] in
  let b_ub := [Fin max_weight] in
  let bounds := repeat (0, 1) (length items) in
  LP.linprog objective constraints b_ub bounds res.

(** Every outcome of the call [offline_knapsack(items, max_weight)]: the
    exception of [linprog], or the [result.fun] returned, [None] included. *)
Definition offline_knapsack_result (items : list Item) (max_weight : R)
    (out : result (option num)) : Prop :=
  let objective := map (fun item => neg (value item)) items in
  let constraints := [map (fun item => weight item) items] in
  let b_ub := [Fin max_weight] in
  let bounds := repeat (0, 1) (length items) in
  LP.linprog_result objective constraints b_ub bounds out.

(** Python's unary minus on what [offline_knapsack] returned: a [TypeError]
    on [None]. *)
Definition py_neg (res : option num) : result num :=
  match res with
  | Some f => Ok (neg f)
  | None => Raise TypeError
  end.

(** ** The experiment loop of [test] *)

Module Driver.

(** [np.random.uniform(low, high, n)] is external: [n] samples, each
    [low + (high - low) * u] for a [u] drawn in [[0, 1)], as numpy computes
    it: within the half-open [[low, high)] when [low < high], and [low]
    itself when [high = low]. *)
Definition uniform (low high : R) (n : nat) (xs : list num) : Prop :=
  length xs = n
  /\ Forall (fun x => exists u, 0 <= u < 1 /\ x = Fin (low + (high - low) * u)) xs.

(** [a * b] on two arrays of one length. *)
Definition times (a b : list num) : list num :=
  map (fun p => mul (fst p) (snd p)) (combine a b).

(** The loop [for value, weight in zip(values, weights)]. *)
Definition make_items (values weights : list num) : list Item :=
  map (fun p => mkItem (fst p) (snd p) (div (fst p) (snd p))) (combine values weights).

(** [sorted(items, key=lambda item: item.ratio)]: ascending and stable, on
    ratios that are not [nan] (with a [nan] key the order that Python's sort
    leaves is not this one). *)
Fixpoint insert_by_ratio (item : Item) (sorted : list Item) : list Item :=
  match sorted with
  | [] => [item]
  | item' :: rest =>
      if ltb (ratio item') (ratio item)
      then item' :: insert_by_ratio item rest
      else item :: sorted
  end.

Definition sorted_by_ratio (items : list Item) : list Item :=
  fold_right insert_by_ratio [] items.

(** The items of one trial, from the two arrays drawn. *)
Definition trial_items (weights densities : list num) (adverserial : bool) : list Item :=
  let values := times densities weights in
  let items := make_items values weights in
  if adverserial then sorted_by_ratio items else items.

(** One iteration of [for i in range(100)]: the pair appended to
    [offline_results] and [online_results], or the exception that ends the
    iteration: the one of [linprog], the [TypeError] of
    [-offline_knapsack(...)] on [None], or the one of [online_knapsack]. *)
Inductive trial (n : nat) (epsilon max_weight p_min p_max : R) (adverserial : bool)
  : result (num * num) -> Prop :=
| trial_run (weights densities : list num) (out : result (option num)) :
    uniform 0 epsilon n weights ->
    uniform p_min p_max n densities ->
    offline_knapsack_result (trial_items weights densities adverserial) max_weight out ->
    trial n epsilon max_weight p_min p_max adverserial
      (lp_fun <- out ;;
       offline <- py_neg lp_fun ;;
       online <- online_knapsack (trial_items weights densities adverserial)
                   p_min p_max max_weight ;;
       Ok (offline, online)).

End Driver.

(** ** The same operations in binary64 *)

Module Binary64.

(** numpy's [float64] is IEEE 754 binary64, the primitive floats of Rocq,
    with their rounding, their overflow to [inf] and their [nan].  [np.log]
    and [np.exp] are not operations of the standard: they are given on the
    arguments where their value is fixed exactly, and left out ([None])
    elsewhere, where the last bit depends on the mathematical library. *)
Definition np_log (x : float) : option float :=
  if PrimFloat.is_nan x then Some PrimFloat.nan
  else if PrimFloat.ltb x 0%float then Some PrimFloat.nan
  else if PrimFloat.eqb x 0%float then Some PrimFloat.neg_infinity
  else if PrimFloat.eqb x PrimFloat.infinity then Some PrimFloat.infinity
  else if PrimFloat.eqb x 1%float then Some 0%float
  else None.

Definition np_exp (x : float) : option float :=
  if PrimFloat.is_nan x then Some PrimFloat.nan
  else if PrimFloat.eqb x PrimFloat.infinity then Some PrimFloat.infinity
  else if PrimFloat.eqb x PrimFloat.neg_infinity then Some 0%float
  else if PrimFloat.eqb x 0%float then Some 1%float
  else None.

(** [beta = max_weight / (1 + np.log(q))], with [q = p_max / p_min]. *)
Definition beta_of (q max_weight : float) : option float :=
  match np_log q with
  | Some l => Some (PrimFloat.div max_weight (PrimFloat.add 1%float l))
  | None => None
  end.

(** [p_min if y < beta else p_min * np.exp(y/beta-1)] *)
Definition threshold (p_min beta y : float) : option float :=
  if PrimFloat.ltb y beta then Some p_min
  else
    match np_exp (PrimFloat.sub (PrimFloat.div y beta) 1%float) with
    | Some e => Some (PrimFloat.mul p_min e)
    | None => None
    end.

(** [Item(value, weight, value/weight)] on floats. *)
Record Item : Type := mkItem { value : float; weight : float; ratio : float }.

Definition times (a b : list float) : list float :=
  map (fun p => PrimFloat.mul (fst p) (snd p)) (combine a b).

Definition make_items (values weights : list float) : list Item :=
  map (fun p => mkItem (fst p) (snd p) (PrimFloat.div (fst p) (snd p)))
      (combine values weights).

(** The largest binary64 number and the smallest positive normal one, as
    real numbers. *)
Definition max_float : R := (2 - / 2 ^ 52) * 2 ^ 1023.
Definition min_normal : R := / 2 ^ 1022.

(** Parameters for which the computed [beta] is a positive number: the
    quotient [p_max / p_min] does not overflow to [inf] (which would make
    [beta] 0) and [max_weight] is not so small that [beta] underflows to
    0. *)
Definition beta_computed (p_min p_max max_weight : R) : Prop :=
  p_max / p_min <= max_float /\ min_normal <= max_weight.

(** Parameters of [test] for which the arrays drawn and the products
    [densities * weights] are numbers: the range [p_max - p_min] does not
    overflow (numpy's [uniform] raises [OverflowError] when it does), nor
    does the product of a density by a weight. *)
Definition draws_computed (epsilon p_min p_max : R) : Prop :=
  Rabs (p_max - p_min) <= max_float
  /\ Rabs p_min * Rabs epsilon <= max_float
  /\ Rabs p_max * Rabs epsilon <= max_float.

End Binary64.

(** ** The whole of [test] *)

Module Experiment.

(** [np.mean] of a list of scalars: their sum over their number ([nan] for
    the empty list, a division of 0 by 0). *)
Definition mean (results : list num) : num :=
  div (fold_left add results (Fin 0)) (Fin (INR (length results))).

(** The loop [for i in range(repeats)] of [test], with the lists
    [offline_results] and [online_results] it appends to: [k] iterations
    are left; an exception raised in an iteration ends the loop. *)
Inductive loop (n : nat) (epsilon max_weight p_min p_max : R) (adverserial : bool)
  : nat -> list num -> list num -> result (list num * list num) -> Prop :=
| loop_done (offline_results online_results : list num) :
    loop n epsilon max_weight p_min p_max adverserial 0
      offline_results online_results (Ok (offline_results, online_results))
| loop_raise (k : nat) (offline_results online_results : list num) (e : exn) :
    Driver.trial n epsilon max_weight p_min p_max adverserial (Raise e) ->
    loop n epsilon max_weight p_min p_max adverserial (S k)
      offline_results online_results (Raise e)
| loop_append (k : nat) (offline_results online_results : list num)
    (offline online : num) (r : result (list num * list num)) :
    Driver.trial n epsilon max_weight p_min p_max adverserial (Ok (offline, online)) ->
    loop n epsilon max_weight p_min p_max adverserial k
      (offline_results ++ [offline]) (online_results ++ [online]) r ->
    loop n epsilon max_weight p_min p_max adverserial (S k)
      offline_results online_results r.

(** The loop run [repeats] times from two empty lists, then
    [return np.mean(offline_results), np.mean(online_results)]. *)
Definition experiment (repeats n : nat) (epsilon max_weight p_min p_max : R)
    (adverserial : bool) (r : result (num * num)) : Prop :=
  exists lists,
    loop n epsilon max_weight p_min p_max adverserial repeats [] [] lists
    /\ r = (p <- lists ;; Ok (mean (fst p), mean (snd p))).

(** [test(n, epsilon, max_weight, p_min, p_max, adverserial)]: 100 trials. *)
Definition test : nat -> R -> R -> R -> R -> bool -> result (num * num) -> Prop :=
  experiment 100.

End Experiment.

(** ** The specification's wording *)

Module Spec.

Definition finite (a : num) : Prop := exists r, a = Fin r.

Definition to_R (a : num) : R :=
  match a with
  | Fin r => r
  | _ => 0
  end.

(** [a <= b] on numpy scalars. *)
Definition le (a b : num) : Prop := leb a b = true.

(** An item made of real numbers. *)
Definition finite_item (item : Item) : Prop :=
  finite (value item) /\ finite (weight item) /\ finite (ratio item).

(** A valid item of a stream with densities in [[p_min, p_max]]. *)
Definition valid_item (p_min p_max : R) (item : Item) : Prop :=
  finite_item item
  /\ 0 < to_R (weight item)
  /\ p_min <= to_R (ratio item) <= p_max.

(** [alpha = 1 + ln(p_max / p_min)] and [beta = max_weight / alpha], in the
    real numbers. *)
Definition alpha (p_min p_max : R) : R := 1 + ln (p_max / p_min).
Definition beta (p_min p_max max_weight : R) : R := max_weight / alpha p_min p_max.

(** The per-item threshold of section 4.2. *)
Definition spec_threshold (p_min beta : R) (accepted_weight : num) : num :=
  if ltb accepted_weight (Fin beta) then Fin p_min
  else mul (Fin p_min) (exp (sub (div accepted_weight (Fin beta)) (Fin 1))).

(** The run of section 4.2: items in arrival order, accepted in full or
    skipped for good; the result is [accepted_value] after the last item. *)
Fixpoint spec_run (p_min beta max_weight : R) (items : list Item)
    (accepted_weight accepted_value : num) : num * num :=
  match items with
  | [] => (accepted_weight, accepted_value)
  | item :: rest =>
      if gtb (ratio item) (spec_threshold p_min beta accepted_weight)
         && leb (add accepted_weight (weight item)) (Fin max_weight)
      then spec_run p_min beta max_weight rest
             (add accepted_weight (weight item)) (add accepted_value (value item))
      else spec_run p_min beta max_weight rest accepted_weight accepted_value
  end.

(** The fixed-threshold greedy of section 8: an item with density above [d]
    that fits the remaining capacity is taken, any other is skipped and the
    next one is looked at. *)
Fixpoint greedy (d max_weight : R) (items : list Item)
    (accepted_weight accepted_value : num) : num * num :=
  match items with
  | [] => (accepted_weight, accepted_value)
  | item :: rest =>
      if gtb (ratio item) (Fin d)
         && leb (add accepted_weight (weight item)) (Fin max_weight)
      then greedy d max_weight rest
             (add accepted_weight (weight item)) (add accepted_value (value item))
      else greedy d max_weight rest accepted_weight accepted_value
  end.

(** The fractional relaxation of section 4.1, on the items' real values and
    weights: [x] is admissible when every [x_i] is in [[0, 1]] and the
    weights taken sum to at most [max_weight]. *)
Definition values (items : list Item) : list R := map (fun item => to_R (value item)) items.
Definition weights (items : list Item) : list R := map (fun item => to_R (weight item)) items.

Definition admissible (items : list Item) (max_weight : R) (x : list R) : Prop :=
  length x = length items
  /\ Forall (fun xi => 0 <= xi <= 1) x
  /\ LP.dot (weights items) x <= max_weight.

(** [m] is the greatest total value of an admissible [x], and is attained. *)
Definition optimum (items : list Item) (max_weight : R) (m : R) : Prop :=
  (exists x, admissible items max_weight x /\ LP.dot (values items) x = m)
  /\ (forall x, admissible items max_weight x -> LP.dot (values items) x <= m).

(** The value per unit of weight of an item of real value and weight. *)
Definition density (item : Item) : R := to_R (value item) / to_R (weight item).

(** At the price [lam] per unit of weight, the fraction [xi] of an item is
    1 when the item is worth more than its weight costs and 0 when it is
    worth less. *)
Definition saturates (lam : R) (item : Item) (xi : R) : Prop :=
  (0 < to_R (value item) - lam * to_R (weight item) -> xi = 1)
  /\ (to_R (value item) - lam * to_R (weight item) < 0 -> xi = 0).

(** An admissible [x] with a price [lam >= 0] that is 0 unless the budget
    is used up: the complementary slackness conditions of the relaxation. *)
Definition priced (items : list Item) (max_weight : R) (x : list R) (lam : R) : Prop :=
  admissible items max_weight x
  /\ 0 <= lam
  /\ lam * (max_weight - LP.dot (weights items) x) = 0
  /\ Forall2 (saturates lam) items x.

(** What the loop of [test] builds from a weight [w] drawn in
    [[0, epsilon]] and a density [d] drawn in [[p_min, p_max]]: the value
    [d * w] and the quotient of that value by the weight, which is [nan]
    when the weight is 0. *)
Definition generated (epsilon p_min p_max : R) (item : Item) : Prop :=
  exists w d,
    0 <= w <= epsilon /\ p_min <= d <= p_max
    /\ weight item = Fin w
    /\ value item = Fin (d * w)
    /\ ratio item = div (value item) (weight item)
    /\ (w = 0 -> ratio item = NaN).

End Spec.

(** The stream of the concrete scenario of section 8, each value being
    ratio times weight. *)
Definition scenario : list Item :=
  [ mkItem (Fin (12 / 10)) (Fin (3 / 10)) (Fin 4);
    mkItem (Fin (15 / 100)) (Fin (3 / 10)) (Fin (1 / 2));
    mkItem (Fin (15 / 10)) (Fin (5 / 10)) (Fin 3) ].

(** The fraction taken of each item, from the outcomes of the acceptance
    test: all of an accepted item, nothing of a rejected one. *)
Definition taken (outcomes : list bool) : list R :=
  map (fun accepted : bool => if accepted then 1 else 0) outcomes.

(** * Properties *)

(** ** Arithmetic of numpy scalars *)

Lemma Rltb_true (a b : R) : Rltb a b = true <-> a < b.
Proof. unfold Rltb. destruct (Rlt_dec a b); split; intros; try easy. Qed.

Lemma Rltb_false (a b : R) : Rltb a b = false <-> b <= a.
Proof.
  unfold Rltb. destruct (Rlt_dec a b); split; intros; try easy; lra.
Qed.

Lemma Rleb_true (a b : R) : Rleb a b = true <-> a <= b.
Proof. unfold Rleb. destruct (Rle_dec a b); split; intros; try easy. Qed.

Lemma Rleb_false (a b : R) : Rleb a b = false <-> b < a.
Proof.
  unfold Rleb. destruct (Rle_dec a b); split; intros; try easy; lra.
Qed.

Lemma py_div_nonzero (a b : R) : b <> 0 -> py_div a b = Ok (a / b).
Proof. intros Hb. unfold py_div. destruct (Req_dec_T b 0); [contradiction | reflexivity]. Qed.

Lemma py_div_zero (a : R) : py_div a 0 = Raise ZeroDivisionError.
Proof. unfold py_div. destruct (Req_dec_T 0 0); [reflexivity | contradiction]. Qed.

Lemma div_fin (a b : R) : b <> 0 -> div (Fin a) (Fin b) = Fin (a / b).
Proof. intros Hb. simpl. destruct (Req_dec_T b 0); [contradiction | reflexivity]. Qed.

Lemma div_zero_zero : div (Fin 0) (Fin 0) = NaN.
Proof.
  simpl. destruct (Req_dec_T 0 0) as [_ | H]; [| contradiction].
  assert (H0 : Rltb 0 0 = false) by (apply Rltb_false; lra).
  now rewrite H0.
Qed.

Lemma log_fin (x : R) : 0 < x -> log (Fin x) = Fin (ln x).
Proof. intros Hx. simpl. apply Rltb_true in Hx. now rewrite Hx. Qed.

Lemma ln_nonneg (x : R) : 1 <= x -> 0 <= ln x.
Proof.
  intros [Hlt | <-].
  - left. rewrite <- ln_1. apply ln_increasing; lra.
  - rewrite ln_1. lra.
Qed.

Lemma quotient_ge_1 (p_min p_max : R) : 0 < p_min -> p_min <= p_max -> 1 <= p_max / p_min.
Proof.
  intros Hmin Hle. apply Rmult_le_reg_r with (r := p_min); [assumption |].
  unfold Rdiv. rewrite Rmult_assoc, Rinv_l by lra. lra.
Qed.

Lemma alpha_ge_1 (p_min p_max : R) : 0 < p_min -> p_min <= p_max -> 1 <= Spec.alpha p_min p_max.
Proof.
  intros Hmin Hle. unfold Spec.alpha.
  pose proof (ln_nonneg _ (quotient_ge_1 _ _ Hmin Hle)). lra.
Qed.

(** With valid parameters the code's [beta] is the real number of the
    specification. *)
Lemma beta_of_valid (p_min p_max max_weight : R) :
  0 < p_min -> p_min <= p_max ->
  beta_of (p_max / p_min) max_weight = Fin (Spec.beta p_min p_max max_weight).
Proof.
  intros Hmin Hle. unfold beta_of, Spec.beta.
  pose proof (quotient_ge_1 _ _ Hmin Hle) as Hq.
  pose proof (alpha_ge_1 _ _ Hmin Hle) as Ha.
  rewrite log_fin by lra. simpl add. fold (Spec.alpha p_min p_max).
  apply div_fin. lra.
Qed.

Lemma beta_nonneg (p_min p_max max_weight : R) :
  0 < p_min -> p_min <= p_max -> 0 <= max_weight -> 0 <= Spec.beta p_min p_max max_weight.
Proof.
  intros Hmin Hle HW. pose proof (alpha_ge_1 _ _ Hmin Hle) as Ha.
  unfold Spec.beta. apply Rmult_le_pos; [assumption |].
  left. apply Rinv_0_lt_compat. lra.
Qed.

Lemma beta_pos (p_min p_max max_weight : R) :
  0 < p_min -> p_min <= p_max -> 0 < max_weight -> 0 < Spec.beta p_min p_max max_weight.
Proof.
  intros Hmin Hle HW. pose proof (alpha_ge_1 _ _ Hmin Hle) as Ha.
  unfold Spec.beta. apply Rmult_lt_0_compat; [assumption |].
  apply Rinv_0_lt_compat. lra.
Qed.

(** ** The loop of the online algorithm *)

Section Loop.

Variables (p_min max_weight : R) (beta : num).

Lemma run_cons (item : Item) (items : list Item) (st : state) :
  run p_min max_weight beta (item :: items) st
  = run p_min max_weight beta items (step p_min max_weight beta st item).
Proof. reflexivity. Qed.

Lemma last_states (items : list Item) (st d : state) :
  last (st :: states p_min max_weight beta items st) d = run p_min max_weight beta items st.
Proof.
  revert st. induction items as [| item items IH]; intros st; [reflexivity |].
  rewrite run_cons, <- IH. reflexivity.
Qed.

(** The last entry of the trace is the state the loop ends in. *)
Lemma run_last_states (items : list Item) (st : state) :
  run p_min max_weight beta items st = last (states p_min max_weight beta items st) st.
Proof.
  destruct items as [| item items]; [reflexivity |].
  rewrite run_cons. symmetry. apply last_states.
Qed.

(** A step that accepts has passed the capacity check on the new weight. *)
Lemma step_within_capacity (st : state) (item : Item) :
  Spec.le (y st) (Fin max_weight) ->
  Spec.le (y (step p_min max_weight beta st item)) (Fin max_weight).
Proof.
  intros Hst. unfold step, accepts.
  destruct (gtb _ _); simpl; [| assumption].
  destruct (leb (add (y st) (weight item)) (Fin max_weight)) eqn:Hfit; simpl; assumption.
Qed.

Lemma states_within_capacity (items : list Item) (st : state) :
  Spec.le (y st) (Fin max_weight) ->
  Forall (fun st' => Spec.le (y st') (Fin max_weight)) (states p_min max_weight beta items st).
Proof.
  revert st. induction items as [| item items IH]; intros st Hst; simpl.
  - constructor.
  - pose proof (step_within_capacity st item Hst) as Hnext.
    constructor; [assumption | apply IH; assumption].
Qed.

End Loop.

Lemma init_within_capacity (max_weight : R) : 0 <= max_weight -> Spec.le (y init) (Fin max_weight).
Proof. intros HW. unfold Spec.le. simpl. apply Rleb_true. assumption. Qed.

(** The loop of the code and the run of the specification go through the
    same states. *)
Lemma run_spec_run (p_min max_weight b : R) (items : list Item) (st : state) :
  run p_min max_weight (Fin b) items st
  = mkState (fst (Spec.spec_run p_min b max_weight items (y st) (total_value st)))
            (snd (Spec.spec_run p_min b max_weight items (y st) (total_value st))).
Proof.
  revert st. induction items as [| item items IH]; intros st.
  - destruct st; reflexivity.
  - rewrite run_cons, IH. simpl Spec.spec_run. unfold step, accepts.
    change (threshold p_min (Fin b) (y st)) with (Spec.spec_threshold p_min b (y st)).
    destruct (gtb (ratio item) (Spec.spec_threshold p_min b (y st))
              && leb (add (y st) (weight item)) (Fin max_weight)); reflexivity.
Qed.

(** C1: with [p_min > 0], [p_max >= p_min] and [max_weight >= 0], the online
    algorithm returns the accepted value of the run the specification
    describes: it starts from accepted weight and value 0, uses
    [beta = max_weight / (1 + ln(p_max/p_min))], compares each item in
    arrival order against [p_min] below [beta] and
    [p_min * exp(accepted_weight/beta - 1)] from [beta] on, takes the item in
    full exactly when its ratio is above the threshold and it fits under
    [max_weight], and skips it for good otherwise. *)
Theorem online_knapsack_refines_spec (items : list Item) (p_min p_max max_weight : R) :
  0 < p_min -> p_min <= p_max -> 0 <= max_weight ->
  beta_of (p_max / p_min) max_weight = Fin (Spec.beta p_min p_max max_weight)
  /\ run p_min max_weight (beta_of (p_max / p_min) max_weight) items init
     = mkState (fst (Spec.spec_run p_min (Spec.beta p_min p_max max_weight) max_weight
                       items (Fin 0) (Fin 0)))
               (snd (Spec.spec_run p_min (Spec.beta p_min p_max max_weight) max_weight
                       items (Fin 0) (Fin 0)))
  /\ online_knapsack items p_min p_max max_weight
     = Ok (snd (Spec.spec_run p_min (Spec.beta p_min p_max max_weight) max_weight
                  items (Fin 0) (Fin 0))).
Proof.
  intros Hmin Hle HW. unfold online_knapsack.
  rewrite py_div_nonzero by lra. cbv beta iota delta [bind].
  rewrite beta_of_valid by assumption.
  rewrite run_spec_run. repeat split.
Qed.

Lemma online_knapsack_refines_spec_witness :
  beta_of (5 / 1) 1 = Fin (Spec.beta 1 5 1)
  /\ run 1 1 (beta_of (5 / 1) 1) scenario init
     = mkState (fst (Spec.spec_run 1 (Spec.beta 1 5 1) 1 scenario (Fin 0) (Fin 0)))
               (snd (Spec.spec_run 1 (Spec.beta 1 5 1) 1 scenario (Fin 0) (Fin 0)))
  /\ online_knapsack scenario 1 5 1
     = Ok (snd (Spec.spec_run 1 (Spec.beta 1 5 1) 1 scenario (Fin 0) (Fin 0))).
Proof. apply online_knapsack_refines_spec; lra. Defined.

(** C3: with weights [>= 0] and [max_weight >= 0], the accepted weight [y] is
    at most [max_weight] after every iteration of the loop. *)
Theorem accepted_weight_within_capacity (items : list Item) (p_min p_max max_weight : R) :
  Forall (fun item => Spec.le (Fin 0) (weight item)) items ->
  0 <= max_weight ->
  Forall (fun st => Spec.le (y st) (Fin max_weight))
         (states p_min max_weight (beta_of (p_max / p_min) max_weight) items init).
Proof.
  intros _ HW. apply states_within_capacity. apply init_within_capacity. assumption.
Qed.

Lemma accepted_weight_within_capacity_witness :
  Forall (fun st => Spec.le (y st) (Fin 1)) (states 1 1 (beta_of (5 / 1) 1) scenario init).
Proof.
  apply accepted_weight_within_capacity.
  - repeat constructor; unfold Spec.le; simpl; apply Rleb_true; lra.
  - lra.
Defined.

(** C10: on the empty stream the online algorithm returns 0, and the state
    is the initial one, accepted weight and value both 0. *)
Theorem online_knapsack_empty (p_min p_max max_weight : R) :
  0 < p_min -> p_min <= p_max -> 0 <= max_weight ->
  online_knapsack [] p_min p_max max_weight = Ok (Fin 0)
  /\ run p_min max_weight (beta_of (p_max / p_min) max_weight) [] init
     = mkState (Fin 0) (Fin 0).
Proof.
  intros Hmin _ _. split; [| reflexivity].
  unfold online_knapsack. rewrite py_div_nonzero by lra. reflexivity.
Qed.

Lemma online_knapsack_empty_witness :
  online_knapsack [] 1 5 1 = Ok (Fin 0)
  /\ run 1 1 (beta_of (5 / 1) 1) [] init = mkState (Fin 0) (Fin 0).
Proof. apply online_knapsack_empty; lra. Defined.

(** ** The threshold *)

(** On a finite accepted weight and a non-zero finite [beta] the threshold
    is a real number. *)
Lemma threshold_fin (p_min b a : R) :
  b <> 0 ->
  threshold p_min (Fin b) (Fin a)
  = Fin (if Rltb a b then p_min else p_min * Rtrigo_def.exp (a / b + - (1))).
Proof.
  intros Hb. unfold threshold. simpl ltb.
  destruct (Rltb a b); [reflexivity |].
  rewrite div_fin by assumption. reflexivity.
Qed.

Lemma exp_ge_1 (x : R) : 0 <= x -> 1 <= Rtrigo_def.exp x.
Proof. intros Hx. pose proof (exp_ineq1_le x). lra. Qed.

Lemma exp_monotone (x x' : R) : x <= x' -> Rtrigo_def.exp x <= Rtrigo_def.exp x'.
Proof.
  intros [Hlt | ->]; [left; apply exp_increasing; assumption | right; reflexivity].
Qed.

Lemma div_monotone (a a' b : R) : 0 < b -> a <= a' -> a / b <= a' / b.
Proof.
  intros Hb Ha. unfold Rdiv. apply Rmult_le_compat_r; [| assumption].
  left. apply Rinv_0_lt_compat. assumption.
Qed.

Lemma div_ge_1 (a b : R) : 0 < b -> b <= a -> 1 <= a / b.
Proof.
  intros Hb Ha. replace 1 with (b / b) by (field; lra).
  apply div_monotone; assumption.
Qed.

(** The real threshold function is non-decreasing for [beta > 0]. *)
Lemma real_threshold_monotone (p_min b y1 y2 : R) :
  0 < p_min -> 0 < b -> y1 <= y2 ->
  (if Rltb y1 b then p_min else p_min * Rtrigo_def.exp (y1 / b + - (1)))
  <= (if Rltb y2 b then p_min else p_min * Rtrigo_def.exp (y2 / b + - (1))).
Proof.
  intros Hmin Hb Hy.
  destruct (Rltb y1 b) eqn:H1; destruct (Rltb y2 b) eqn:H2.
  - lra.
  - apply Rltb_false in H2.
    pose proof (div_ge_1 y2 b Hb H2) as Hq.
    pose proof (exp_ge_1 (y2 / b + - (1))) as He. nra.
  - apply Rltb_true in H2. apply Rltb_false in H1. lra.
  - pose proof (div_monotone y1 y2 b Hb Hy) as Hq.
    pose proof (exp_monotone (y1 / b + - (1)) (y2 / b + - (1))) as He.
    apply Rmult_le_compat_l; [lra | apply He; lra].
Qed.

(** The largest binary64 number is at least 8 and the smallest normal one
    at most 1. *)
Lemma max_float_large : 8 <= Binary64.max_float.
Proof.
  unfold Binary64.max_float.
  assert (H52 : 1 <= 2 ^ 52) by (apply pow_R1_Rle; lra).
  assert (H8 : 2 ^ 3 <= 2 ^ 1023) by (apply Rle_pow; [lra | lia]).
  assert (H3 : 2 ^ 3 = 8) by (simpl; lra).
  assert (Hinv : / 2 ^ 52 <= 1).
  { rewrite <- Rinv_1. apply Rinv_le_contravar; lra. }
  set (big := 2 ^ 1023) in *. set (small := / 2 ^ 52) in *. nra.
Qed.

Lemma min_normal_small : Binary64.min_normal <= 1.
Proof.
  unfold Binary64.min_normal.
  assert (H1022 : 1 <= 2 ^ 1022) by (apply pow_R1_Rle; lra).
  rewrite <- Rinv_1. apply Rinv_le_contravar; lra.
Qed.

Lemma beta_computed_example : Binary64.beta_computed 1 5 1.
Proof.
  pose proof max_float_large. pose proof min_normal_small.
  unfold Binary64.beta_computed. split; lra.
Qed.

Lemma draws_computed_small (epsilon p_min p_max : R) :
  -1 <= epsilon <= 1 -> -4 <= p_min <= 4 -> -4 <= p_max <= 4 ->
  Binary64.draws_computed epsilon p_min p_max.
Proof.
  intros Heps Hmin Hmax.
  pose proof max_float_large as Hlarge.
  assert (He : Rabs epsilon <= 1) by (apply Rabs_le; lra).
  assert (Hl : Rabs p_min <= 4) by (apply Rabs_le; lra).
  assert (Hh : Rabs p_max <= 4) by (apply Rabs_le; lra).
  assert (Hr : Rabs (p_max - p_min) <= 8) by (apply Rabs_le; lra).
  pose proof (Rabs_pos epsilon). pose proof (Rabs_pos p_min). pose proof (Rabs_pos p_max).
  assert (Hpl : Rabs p_min * Rabs epsilon <= 4 * 1)
    by (apply Rmult_le_compat; assumption).
  assert (Hph : Rabs p_max * Rabs epsilon <= 4 * 1)
    by (apply Rmult_le_compat; assumption).
  unfold Binary64.draws_computed. split; [lra | split; lra].
Qed.

(** C7, as amended: for [p_min > 0], [p_max >= p_min] and [max_weight > 0]
    within the range where the computed [beta] is a positive number (the
    quotient [p_max / p_min] does not overflow, [max_weight] is a normal
    number), the threshold of the online algorithm is non-decreasing in the
    accepted weight: for [0 <= y1 <= y2], [threshold(y1) <= threshold(y2)]. *)
Theorem threshold_monotone (p_min p_max max_weight y1 y2 : R) :
  0 < p_min -> p_min <= p_max -> 0 < max_weight ->
  Binary64.beta_computed p_min p_max max_weight ->
  0 <= y1 -> y1 <= y2 ->
  Spec.le (threshold p_min (beta_of (p_max / p_min) max_weight) (Fin y1))
          (threshold p_min (beta_of (p_max / p_min) max_weight) (Fin y2)).
Proof.
  intros Hmin Hle HW _ _ Hy.
  rewrite beta_of_valid by assumption.
  pose proof (beta_pos p_min p_max max_weight Hmin Hle HW) as Hb.
  rewrite !threshold_fin by lra.
  unfold Spec.le. simpl leb. apply Rleb_true.
  apply real_threshold_monotone; assumption.
Qed.

Lemma threshold_monotone_witness :
  Spec.le (threshold 1 (beta_of (5 / 1) 1) (Fin 0))
          (threshold 1 (beta_of (5 / 1) 1) (Fin 1)).
Proof. apply threshold_monotone; try lra. exact beta_computed_example. Defined.

(** C7 as stated fails in binary64 when the quotient overflows: with
    [p_min = 2^-1000], [p_max = 2^1000] and [max_weight = 1],
    [p_max / p_min] is [inf], so is its logarithm, and [beta] is
    [1 / inf = 0]; the threshold at [y1 = 0] is
    [p_min * exp(0/0 - 1) = nan] and at [y2 = 0.5] it is
    [p_min * exp(0.5/0 - 1) = inf]: [nan <= inf] is false. *)
Lemma threshold_not_monotone_on_overflow :
  PrimFloat.ltb 0%float 0x1p-1000%float = true
  /\ PrimFloat.leb 0x1p-1000%float 0x1p+1000%float = true
  /\ PrimFloat.ltb 0%float 1%float = true
  /\ PrimFloat.leb 0%float 0%float = true
  /\ PrimFloat.leb 0%float 0x1p-1%float = true
  /\ (exists beta t1 t2,
        Binary64.beta_of (PrimFloat.div 0x1p+1000%float 0x1p-1000%float) 1%float = Some beta
        /\ PrimFloat.eqb beta 0%float = true
        /\ Binary64.threshold 0x1p-1000%float beta 0%float = Some t1
        /\ Binary64.threshold 0x1p-1000%float beta 0x1p-1%float = Some t2
        /\ PrimFloat.is_nan t1 = true
        /\ PrimFloat.eqb t2 PrimFloat.infinity = true
        /\ PrimFloat.leb t1 t2 = false).
Proof.
  do 5 (split; [reflexivity |]).
  exists 0%float, PrimFloat.nan, PrimFloat.infinity.
  repeat split; reflexivity.
Qed.

(** ** The degenerate threshold, [p_min = p_max = d] *)

Lemma beta_degenerate (d max_weight : R) : 0 < d -> beta_of (d / d) max_weight = Fin max_weight.
Proof.
  intros Hd. rewrite beta_of_valid by lra. f_equal.
  unfold Spec.beta, Spec.alpha.
  replace (d / d) with 1 by (field; lra). rewrite ln_1. field.
Qed.

(** While the accepted weight is at most [max_weight = beta > 0] the
    threshold is [d]: below [beta] by the first branch, at [beta] because
    [exp(beta/beta - 1) = 1]. *)
Lemma threshold_degenerate (d max_weight : R) (a : num) :
  0 < max_weight -> Spec.le a (Fin max_weight) ->
  threshold d (Fin max_weight) a = Fin d.
Proof.
  intros HW Ha. unfold Spec.le in Ha.
  destruct a as [a | | |]; simpl in Ha; try discriminate.
  - apply Rleb_true in Ha. rewrite threshold_fin by lra.
    destruct (Rltb a max_weight) eqn:Hlt; [reflexivity |].
    apply Rltb_false in Hlt. assert (a = max_weight) as -> by lra.
    f_equal. replace (max_weight / max_weight + - (1)) with 0 by (field; lra).
    rewrite exp_0. lra.
  - reflexivity.
Qed.

Section Degenerate.

Variables (d max_weight : R).
Hypothesis d_pos : 0 < d.
Hypothesis capacity_pos : 0 < max_weight.

Lemma accepts_degenerate (st : state) (item : Item) :
  Spec.le (y st) (Fin max_weight) ->
  accepts d max_weight (Fin max_weight) st item
  = gtb (ratio item) (Fin d) && leb (add (y st) (weight item)) (Fin max_weight).
Proof.
  intros Hst. unfold accepts.
  rewrite threshold_degenerate by assumption. reflexivity.
Qed.

Lemma thresholds_degenerate (items : list Item) (st : state) :
  Spec.le (y st) (Fin max_weight) ->
  Forall (fun t => t = Fin d) (thresholds d max_weight (Fin max_weight) items st).
Proof.
  revert st. induction items as [| item items IH]; intros st Hst; simpl.
  - constructor.
  - constructor.
    + apply threshold_degenerate; assumption.
    + apply IH. apply step_within_capacity. assumption.
Qed.

Lemma greedy_cons (item : Item) (items : list Item) (a v : num) :
  Spec.greedy d max_weight (item :: items) a v
  = if gtb (ratio item) (Fin d) && leb (add a (weight item)) (Fin max_weight)
    then Spec.greedy d max_weight items (add a (weight item)) (add v (value item))
    else Spec.greedy d max_weight items a v.
Proof. reflexivity. Qed.

Lemma run_degenerate (items : list Item) (st : state) :
  Spec.le (y st) (Fin max_weight) ->
  run d max_weight (Fin max_weight) items st
  = mkState (fst (Spec.greedy d max_weight items (y st) (total_value st)))
            (snd (Spec.greedy d max_weight items (y st) (total_value st))).
Proof.
  revert st. induction items as [| item items IH]; intros st Hst.
  - destruct st; reflexivity.
  - rewrite run_cons.
    rewrite IH by (apply step_within_capacity; assumption).
    rewrite greedy_cons. unfold step.
    rewrite accepts_degenerate by assumption.
    destruct (gtb (ratio item) (Fin d) && leb (add (y st) (weight item)) (Fin max_weight));
      reflexivity.
Qed.

End Degenerate.

(** C6, as amended: when [p_min = p_max = d > 0] and [max_weight > 0],
    [beta] is [max_weight], the threshold is [d] at every iteration, and the
    online algorithm is the fixed-threshold greedy: in arrival order it takes
    exactly the items with ratio above [d] that fit the remaining capacity,
    and goes on to the later items after one that does not fit. *)
Theorem degenerate_threshold_greedy (items : list Item) (d max_weight : R) :
  0 < d -> 0 < max_weight ->
  beta_of (d / d) max_weight = Fin max_weight
  /\ Forall (fun t => t = Fin d)
            (thresholds d max_weight (beta_of (d / d) max_weight) items init)
  /\ online_knapsack items d d max_weight
     = Ok (snd (Spec.greedy d max_weight items (Fin 0) (Fin 0))).
Proof.
  intros Hd HW.
  pose proof (init_within_capacity max_weight (Rlt_le _ _ HW)) as Hinit.
  rewrite beta_degenerate by assumption.
  split; [reflexivity | split].
  - apply thresholds_degenerate; assumption.
  - unfold online_knapsack. rewrite py_div_nonzero by lra. cbv beta iota delta [bind].
    rewrite beta_degenerate by assumption.
    rewrite run_degenerate by assumption. reflexivity.
Qed.

Lemma degenerate_threshold_greedy_witness :
  beta_of (2 / 2) 1 = Fin 1
  /\ Forall (fun t => t = Fin 2)
            (thresholds 2 1 (beta_of (2 / 2) 1)
               [mkItem (Fin 3) (Fin 1) (Fin 3); mkItem (Fin 1) (Fin 1) (Fin 1)] init)
  /\ online_knapsack [mkItem (Fin 3) (Fin 1) (Fin 3); mkItem (Fin 1) (Fin 1) (Fin 1)] 2 2 1
     = Ok (snd (Spec.greedy 2 1
                  [mkItem (Fin 3) (Fin 1) (Fin 3); mkItem (Fin 1) (Fin 1) (Fin 1)]
                  (Fin 0) (Fin 0))).
Proof. apply degenerate_threshold_greedy; lra. Defined.

(** C6 as stated fails without [max_weight > 0]: with [d = 1] and
    [max_weight = 0], [beta] is 0, the first test [0 < 0] is false and the
    threshold is [1 * exp(0/0 - 1)], which is [nan], not [d]. *)
Lemma degenerate_threshold_zero_capacity :
  0 < 1
  /\ thresholds 1 0 (beta_of (1 / 1) 0) [mkItem (Fin 2) (Fin 1) (Fin 2)] init = [NaN]
  /\ ~ Forall (fun t => t = Fin 1)
         (thresholds 1 0 (beta_of (1 / 1) 0) [mkItem (Fin 2) (Fin 1) (Fin 2)] init).
Proof.
  assert (Ht : thresholds 1 0 (beta_of (1 / 1) 0) [mkItem (Fin 2) (Fin 1) (Fin 2)] init
               = [NaN]).
  { rewrite beta_degenerate by lra. simpl. unfold threshold. simpl ltb.
    assert (H0 : Rltb 0 0 = false) by (apply Rltb_false; lra).
    rewrite H0, div_zero_zero. reflexivity. }
  split; [lra | split; [exact Ht |]].
  rewrite Ht. intros H. inversion H as [| t l Heq Hl]. discriminate Heq.
Qed.

(** ** The scenario of section 8 *)

Lemma ln_5_bound : ln 5 < 7 / 3.
Proof.
  assert (He : 16 / 9 < Rtrigo_def.exp (7 / 9)).
  { pose proof (exp_ineq1 (7 / 9)) as H. lra. }
  assert (H5 : 5 < Rtrigo_def.exp (7 / 3)).
  { replace (7 / 3) with (7 / 9 + (7 / 9 + 7 / 9)) by lra.
    rewrite !exp_plus. nra. }
  rewrite <- (ln_exp (7 / 3)). apply ln_increasing; lra.
Qed.

(** [beta = 1 / (1 + ln 5)] is about 0.3832: above the weight 0.3. *)
Lemma scenario_beta : 3 / 10 < Spec.beta 1 5 1.
Proof.
  unfold Spec.beta, Spec.alpha. replace (5 / 1) with 5 by lra.
  pose proof ln_5_bound as Hhi.
  pose proof (ln_nonneg 5 ltac:(lra)) as Hlo.
  apply Rmult_lt_reg_r with (r := 1 + ln 5); [lra |].
  unfold Rdiv at 2. rewrite Rmult_assoc, Rinv_l by lra. lra.
Qed.

(** Below [beta] the acceptance test on real numbers is [ratio > p_min] and
    [y + weight <= max_weight]. *)
Lemma accepts_below_beta (p_min max_weight b a t v w r : R) :
  a < b ->
  accepts p_min max_weight (Fin b) (mkState (Fin a) (Fin t)) (mkItem (Fin v) (Fin w) (Fin r))
  = Rltb p_min r && Rleb (a + w) max_weight.
Proof.
  intros Hab. unfold accepts, threshold. simpl.
  apply Rltb_true in Hab. rewrite Hab. reflexivity.
Qed.

(** C8: with [p_min = 1], [p_max = 5], [max_weight = 1] and the stream
    (0.3, ratio 4), (0.3, ratio 0.5), (0.5, ratio 3), the online algorithm
    accepts the first and the third item and rejects the second, ends with
    accepted weight 0.8 and returns 2.7. *)
Theorem scenario_result :
  decisions 1 1 (beta_of (5 / 1) 1) scenario init = [true; false; true]
  /\ run 1 1 (beta_of (5 / 1) 1) scenario init = mkState (Fin (8 / 10)) (Fin (27 / 10))
  /\ online_knapsack scenario 1 5 1 = Ok (Fin (27 / 10)).
Proof.
  pose proof scenario_beta as Hb.
  assert (Hbeta : beta_of (5 / 1) 1 = Fin (Spec.beta 1 5 1)) by (apply beta_of_valid; lra).
  assert (A1 : accepts 1 1 (Fin (Spec.beta 1 5 1)) init
                 (mkItem (Fin (12 / 10)) (Fin (3 / 10)) (Fin 4)) = true).
  { unfold init. rewrite accepts_below_beta by lra.
    apply andb_true_intro. split; [apply Rltb_true | apply Rleb_true]; lra. }
  assert (A2 : accepts 1 1 (Fin (Spec.beta 1 5 1)) (mkState (Fin (3 / 10)) (Fin (12 / 10)))
                 (mkItem (Fin (15 / 100)) (Fin (3 / 10)) (Fin (1 / 2))) = false).
  { rewrite accepts_below_beta by lra.
    apply andb_false_intro1. apply Rltb_false. lra. }
  assert (A3 : accepts 1 1 (Fin (Spec.beta 1 5 1)) (mkState (Fin (3 / 10)) (Fin (12 / 10)))
                 (mkItem (Fin (15 / 10)) (Fin (5 / 10)) (Fin 3)) = true).
  { rewrite accepts_below_beta by lra.
    apply andb_true_intro. split; [apply Rltb_true | apply Rleb_true]; lra. }
  assert (S1 : step 1 1 (Fin (Spec.beta 1 5 1)) init
                 (mkItem (Fin (12 / 10)) (Fin (3 / 10)) (Fin 4))
               = mkState (Fin (3 / 10)) (Fin (12 / 10))).
  { unfold step. rewrite A1. simpl. f_equal; f_equal; lra. }
  assert (S2 : step 1 1 (Fin (Spec.beta 1 5 1)) (mkState (Fin (3 / 10)) (Fin (12 / 10)))
                 (mkItem (Fin (15 / 100)) (Fin (3 / 10)) (Fin (1 / 2)))
               = mkState (Fin (3 / 10)) (Fin (12 / 10))).
  { unfold step. rewrite A2. reflexivity. }
  assert (S3 : step 1 1 (Fin (Spec.beta 1 5 1)) (mkState (Fin (3 / 10)) (Fin (12 / 10)))
                 (mkItem (Fin (15 / 10)) (Fin (5 / 10)) (Fin 3))
               = mkState (Fin (8 / 10)) (Fin (27 / 10))).
  { unfold step. rewrite A3. simpl. f_equal; f_equal; lra. }
  assert (Hrun : run 1 1 (Fin (Spec.beta 1 5 1)) scenario init
                 = mkState (Fin (8 / 10)) (Fin (27 / 10))).
  { unfold scenario. rewrite !run_cons, S1, S2, S3. reflexivity. }
  rewrite Hbeta. split; [| split].
  - unfold scenario. cbn [decisions]. rewrite S1, S2, A1, A2, A3. reflexivity.
  - exact Hrun.
  - unfold online_knapsack. rewrite py_div_nonzero by lra. cbv beta iota delta [bind].
    rewrite Hbeta, Hrun. reflexivity.
Qed.

(** ** The linear program of the offline optimizer *)

Lemma dot_cons (a x : R) (l xs : list R) : LP.dot (a :: l) (x :: xs) = a * x + LP.dot l xs.
Proof. reflexivity. Qed.

Lemma dot_opp (c x : list R) : LP.dot (map Ropp c) x = - LP.dot c x.
Proof.
  revert x. induction c as [| a c IH]; intros [| x0 x]; try (cbn; lra).
  cbn [map]. rewrite !dot_cons, IH. lra.
Qed.

(** The sum of the products over a list of pairs (item, fraction). *)
Lemma dot_pairs (h : Item -> R) (l : list (Item * R)) :
  LP.dot (map h (map fst l)) (map snd l)
  = fold_right Rplus 0 (map (fun p => h (fst p) * snd p) l).
Proof.
  induction l as [| p l IH]; [reflexivity |].
  cbn [map]. rewrite dot_cons, IH. reflexivity.
Qed.

Lemma sum_permutation (A : Type) (g : A -> R) (l l' : list A) :
  Permutation l l' ->
  fold_right Rplus 0 (map g l) = fold_right Rplus 0 (map g l').
Proof.
  induction 1 as [| a l l' _ IH | a b l | l l' l'' _ IH1 _ IH2]; cbn.
  - reflexivity.
  - rewrite IH. reflexivity.
  - lra.
  - congruence.
Qed.

Lemma in_bounds_unit (n : nat) (x : list R) :
  LP.in_bounds (repeat (0, 1) n) x <-> length x = n /\ Forall (fun xi => 0 <= xi <= 1) x.
Proof.
  unfold LP.in_bounds. revert x. induction n as [| n IH]; intros x; cbn [repeat].
  - split.
    + intros H. inversion H. split; [reflexivity | constructor].
    + intros [Hlen _]. destruct x; [constructor | discriminate].
  - split.
    + intros H. inversion H as [| bd x0 bds xs Hx0 Hxs]; subst.
      apply IH in Hxs. destruct Hxs as [Hlen Hall].
      split; [cbn; congruence | constructor; assumption].
    + intros [Hlen Hall]. destruct x as [| x0 xs]; [discriminate |].
      inversion Hall; subst. constructor; [assumption |].
      apply IH. split; [cbn in Hlen; congruence | assumption].
Qed.

(** The program built by [offline_knapsack] has the admissible points of the
    relaxation as its feasible points. *)
Lemma feasible_admissible (items : list Item) (max_weight : R) (x : list R) :
  LP.feasible [Spec.weights items] [max_weight] (repeat (0, 1) (length items)) x
  <-> Spec.admissible items max_weight x.
Proof.
  unfold LP.feasible, Spec.admissible. rewrite in_bounds_unit. split.
  - intros [[Hlen Hall] Hrow]. inversion Hrow; subst. tauto.
  - intros (Hlen & Hall & Hrow). split; [split; assumption |].
    constructor; [assumption | constructor].
Qed.

(** Minimising the negated objective is maximising the value. *)
Lemma minimum_optimum (items : list Item) (max_weight f : R) :
  LP.minimum (map Ropp (Spec.values items)) [Spec.weights items] [max_weight]
             (repeat (0, 1) (length items)) f
  <-> Spec.optimum items max_weight (- f).
Proof.
  unfold LP.minimum, Spec.optimum. split.
  - intros [(x & Hx & Hval) Hmin]. split.
    + exists x. split; [apply feasible_admissible; assumption |].
      rewrite dot_opp in Hval. lra.
    + intros x' Hx'. apply feasible_admissible in Hx'.
      specialize (Hmin x' Hx'). rewrite dot_opp in Hmin. lra.
  - intros [(x & Hx & Hval) Hmax]. split.
    + exists x. split; [apply feasible_admissible; assumption |].
      rewrite dot_opp. lra.
    + intros x' Hx'. apply feasible_admissible in Hx'.
      specialize (Hmax x' Hx'). rewrite dot_opp. lra.
Qed.

Lemma neg_fin_inv (a : num) (c : R) : neg a = Fin c -> a = Fin (- c).
Proof.
  destruct a; simpl; intros H; try discriminate.
  injection H as <-. f_equal. lra.
Qed.

(** Arrays that the solver takes as finite are arrays of the items' real
    values and weights. *)
Lemma objective_finite (items : list Item) (c' : list R) :
  map (fun item => neg (value item)) items = map Fin c' ->
  c' = map Ropp (Spec.values items) /\ Forall (fun item => Spec.finite (value item)) items.
Proof.
  revert c'. induction items as [| item items IH]; intros [| c0 c']; cbn [map];
    intros H; try discriminate.
  - split; [reflexivity | constructor].
  - injection H as H0 Hrest. apply neg_fin_inv in H0.
    destruct (IH c' Hrest) as [-> Hfin]. split.
    + change (Spec.values (item :: items))
        with (Spec.to_R (value item) :: Spec.values items).
      cbn [map]. rewrite H0. cbn [Spec.to_R]. f_equal. lra.
    + constructor; [exists (- c0); assumption | assumption].
Qed.

Lemma constraint_finite (items : list Item) (a' : list R) :
  map (fun item => weight item) items = map Fin a' ->
  a' = Spec.weights items /\ Forall (fun item => Spec.finite (weight item)) items.
Proof.
  revert a'. induction items as [| item items IH]; intros [| a0 a']; cbn [map];
    intros H; try discriminate.
  - split; [reflexivity | constructor].
  - injection H as H0 Hrest.
    destruct (IH a' Hrest) as [-> Hfin]. split.
    + change (Spec.weights (item :: items))
        with (Spec.to_R (weight item) :: Spec.weights items).
      rewrite H0. reflexivity.
    + constructor; [exists a0; assumption | assumption].
Qed.

(** What [offline_knapsack] returns: the negation of the optimum of the
    relaxation. *)
Lemma offline_knapsack_inv (items : list Item) (max_weight : R) (res : num) :
  offline_knapsack items max_weight res ->
  exists m, res = Fin (- m) /\ Spec.optimum items max_weight m
            /\ Forall (fun item => Spec.finite (value item)) items
            /\ Forall (fun item => Spec.finite (weight item)) items.
Proof.
  unfold offline_knapsack. intros H.
  destruct H as [c' A' b' f Hc HA Hb Hmin].
  destruct (objective_finite items c' Hc) as [-> Hvals].
  destruct A' as [| a' [| ? ?]]; try discriminate HA.
  injection HA as HA. destruct (constraint_finite items a' HA) as [-> Hws].
  destruct b' as [| b0 [| ? ?]]; try discriminate Hb.
  injection Hb as <-.
  apply minimum_optimum in Hmin.
  exists (- f). rewrite Ropp_involutive. auto.
Qed.

Lemma finite_values (items : list Item) :
  Forall (fun item => Spec.finite (value item)) items ->
  map (fun item => neg (value item)) items = map Fin (map Ropp (Spec.values items)).
Proof.
  induction 1 as [| item items [v Hv] _ IH]; [reflexivity |].
  cbn [map Spec.values]. unfold Spec.values in IH. rewrite IH, Hv. reflexivity.
Qed.

Lemma finite_weights (items : list Item) :
  Forall (fun item => Spec.finite (weight item)) items ->
  map (fun item => weight item) items = map Fin (Spec.weights items).
Proof.
  induction 1 as [| item items [w Hw] _ IH]; [reflexivity |].
  cbn [map Spec.weights]. unfold Spec.weights in IH. rewrite IH, Hw. reflexivity.
Qed.

Lemma offline_knapsack_intro (items : list Item) (max_weight m : R) :
  items <> [] ->
  Forall (fun item => Spec.finite (value item)) items ->
  Forall (fun item => Spec.finite (weight item)) items ->
  Spec.optimum items max_weight m ->
  offline_knapsack items max_weight (Fin (- m)).
Proof.
  intros Hne Hvals Hws Hopt. unfold offline_knapsack.
  apply LP.linprog_optimal
    with (c' := map Ropp (Spec.values items)) (A' := [Spec.weights items]) (b' := [max_weight]).
  - apply finite_values. assumption.
  - cbn [map]. rewrite finite_weights by assumption. reflexivity.
  - reflexivity.
  - apply minimum_optimum. rewrite Ropp_involutive. assumption.
  - destruct items; [contradiction | discriminate].
Qed.

(** [linprog] refuses a program without variables: a value is returned on
    a list of items that is not empty only. *)
Lemma offline_knapsack_nonempty (items : list Item) (max_weight : R) (res : num) :
  offline_knapsack items max_weight res -> items <> [].
Proof.
  unfold offline_knapsack. intros H.
  destruct H as [c' A' b' f Hc _ _ _ Hne].
  intros ->. destruct c'; [contradiction | discriminate].
Qed.

Lemma dot_zero (l : list R) : LP.dot l (repeat 0 (length l)) = 0.
Proof.
  induction l as [| a l IH]; [reflexivity |].
  cbn [length repeat]. rewrite dot_cons, IH. lra.
Qed.

(** Taking nothing is admissible under a budget [>= 0]. *)
Lemma admissible_zero (items : list Item) (max_weight : R) :
  0 <= max_weight -> Spec.admissible items max_weight (repeat 0 (length items)).
Proof.
  intros HW. unfold Spec.admissible. split; [| split].
  - apply repeat_length.
  - apply Forall_forall. intros xi Hin. apply repeat_spec in Hin. lra.
  - unfold Spec.weights. rewrite <- (length_map (fun item => Spec.to_R (weight item)) items).
    rewrite dot_zero. assumption.
Qed.

Lemma optimum_nonneg (items : list Item) (max_weight m : R) :
  0 <= max_weight -> Spec.optimum items max_weight m -> 0 <= m.
Proof.
  intros HW [_ Hmax]. specialize (Hmax _ (admissible_zero items max_weight HW)).
  unfold Spec.values in Hmax.
  rewrite <- (length_map (fun item => Spec.to_R (value item)) items) in Hmax.
  rewrite dot_zero in Hmax. assumption.
Qed.

Lemma optimum_unique (items : list Item) (max_weight m m' : R) :
  Spec.optimum items max_weight m -> Spec.optimum items max_weight m' -> m = m'.
Proof.
  intros [(x & Hx & Hv) Hmax] [(x' & Hx' & Hv') Hmax'].
  specialize (Hmax x' Hx'). specialize (Hmax' x Hx). lra.
Qed.

(** One item of value 1 and weight 1 under budget 1: the optimum is 1. *)
Lemma optimum_single : Spec.optimum [mkItem (Fin 1) (Fin 1) (Fin 1)] 1 1.
Proof.
  split.
  - exists [1]. split.
    + split; [reflexivity | split].
      * repeat constructor; lra.
      * cbn. lra.
    + cbn. lra.
  - intros x (Hlen & Hall & Hrow).
    destruct x as [| x0 [| ? ?]]; try discriminate Hlen.
    cbn in Hrow |- *. lra.
Qed.

Lemma offline_knapsack_single :
  offline_knapsack [mkItem (Fin 1) (Fin 1) (Fin 1)] 1 (Fin (- (1))).
Proof.
  apply offline_knapsack_intro.
  - discriminate.
  - repeat constructor. exists 1. reflexivity.
  - repeat constructor. exists 1. reflexivity.
  - exact optimum_single.
Qed.

(** ** Online against offline *)

Section Selection.

Variables (p_min max_weight : R) (beta : num).


End Selection.

Lemma map_fst_combine (A B : Type) (l : list A) (l' : list B) :
  length l = length l' -> map fst (combine l l') = l.
Proof.
  revert l'. induction l as [| a l IH]; intros [| b l'] Hlen; try discriminate; cbn.
  - reflexivity.
  - f_equal. apply IH. cbn in Hlen. congruence.
Qed.

Lemma map_snd_combine (A B : Type) (l : list A) (l' : list B) :
  length l = length l' -> map snd (combine l l') = l'.
Proof.
  revert l'. induction l as [| a l IH]; intros [| b l'] Hlen; try discriminate; cbn.
  - reflexivity.
  - f_equal. apply IH. cbn in Hlen. congruence.
Qed.

Lemma dot_permutation (h : Item -> R) (l l' : list (Item * R)) :
  Permutation l l' ->
  LP.dot (map h (map fst l')) (map snd l') = LP.dot (map h (map fst l)) (map snd l).
Proof.
  intros Hperm. rewrite !dot_pairs. symmetry. apply sum_permutation. assumption.
Qed.

(** An admissible point for a list of items gives one of the same value for
    any reordering of the list. *)
Lemma admissible_permutation (items items' : list Item) (max_weight : R) (x : list R) :
  Permutation items items' ->
  Spec.admissible items max_weight x ->
  exists x', Spec.admissible items' max_weight x'
             /\ LP.dot (Spec.values items') x' = LP.dot (Spec.values items) x.
Proof.
  intros Hperm (Hlen & Hall & Hrow).
  pose proof (map_fst_combine _ _ items x (eq_sym Hlen)) as Hfst.
  pose proof (map_snd_combine _ _ items x (eq_sym Hlen)) as Hsnd.
  rewrite <- Hfst in Hperm. apply Permutation_sym in Hperm.
  destruct (Permutation_map_inv _ _ Hperm) as (l' & -> & Hl').
  pose proof (dot_permutation (fun item => Spec.to_R (weight item)) _ _ Hl') as Hw.
  pose proof (dot_permutation (fun item => Spec.to_R (value item)) _ _ Hl') as Hv.
  rewrite Hfst, Hsnd in Hw, Hv.
  exists (map snd l'). unfold Spec.admissible, Spec.weights, Spec.values.
  split; [split; [| split] |].
  - rewrite !length_map. reflexivity.
  - apply (Permutation_Forall (Permutation_map snd Hl')). rewrite Hsnd. assumption.
  - rewrite Hw. assumption.
  - exact Hv.
Qed.


(** ** Invalid parameters *)

Lemma online_knapsack_returns (items : list Item) (p_min p_max max_weight : R) :
  p_min <> 0 -> exists v, online_knapsack items p_min p_max max_weight = Ok v.
Proof.
  intros Hmin. unfold online_knapsack. rewrite py_div_nonzero by assumption.
  eexists. reflexivity.
Qed.

Lemma online_knapsack_zero_p_min (items : list Item) (p_max max_weight : R) :
  online_knapsack items 0 p_max max_weight = Raise ZeroDivisionError.
Proof. unfold online_knapsack. rewrite py_div_zero. reflexivity. Qed.

(** C5 as stated fails: with [p_min = -1] the logarithm of [5 / -1] is
    [nan], so are [beta] and the threshold, and the online algorithm does
    not fail: it rejects the item and returns 0. *)
Lemma negative_p_min_not_rejected :
  -1 <= 0
  /\ beta_of (5 / -1) 1 = NaN
  /\ online_knapsack [mkItem (Fin 3) (Fin 1) (Fin 3)] (-1) 5 1 = Ok (Fin 0)
  /\ ~ (exists e, online_knapsack [mkItem (Fin 3) (Fin 1) (Fin 3)] (-1) 5 1 = Raise e).
Proof.
  assert (Hbeta : beta_of (5 / -1) 1 = NaN).
  { unfold beta_of. simpl log.
    assert (H1 : Rltb 0 (5 / -1) = false) by (apply Rltb_false; lra).
    assert (H2 : Rltb (5 / -1) 0 = true) by (apply Rltb_true; lra).
    rewrite H1, H2. reflexivity. }
  assert (Hrun : online_knapsack [mkItem (Fin 3) (Fin 1) (Fin 3)] (-1) 5 1 = Ok (Fin 0)).
  { unfold online_knapsack. rewrite py_div_nonzero by lra.
    cbv beta iota delta [bind]. rewrite Hbeta. reflexivity. }
  split; [lra | split; [exact Hbeta | split; [exact Hrun |]]].
  intros [e He]. rewrite Hrun in He. discriminate He.
Qed.

(** ** The generator of [test] *)

Lemma insert_by_ratio_permutation (item : Item) (sorted : list Item) :
  Permutation (item :: sorted) (Driver.insert_by_ratio item sorted).
Proof.
  induction sorted as [| item' rest IH]; cbn [Driver.insert_by_ratio].
  - apply Permutation_refl.
  - destruct (ltb (ratio item') (ratio item)).
    + eapply perm_trans; [apply perm_swap |]. apply perm_skip. exact IH.
    + apply Permutation_refl.
Qed.

Lemma sorted_by_ratio_permutation (items : list Item) :
  Permutation items (Driver.sorted_by_ratio items).
Proof.
  induction items as [| item items IH]; cbn.
  - apply perm_nil.
  - eapply perm_trans; [apply perm_skip; exact IH |].
    apply insert_by_ratio_permutation.
Qed.

Lemma div_by_zero_weight (v : R) : v = 0 -> div (Fin v) (Fin 0) = NaN.
Proof.
  intros ->. apply div_zero_zero.
Qed.

Lemma generated_item (epsilon p_min p_max w d : R) :
  0 <= w <= epsilon -> p_min <= d <= p_max ->
  Spec.generated epsilon p_min p_max
    (mkItem (mul (Fin d) (Fin w)) (Fin w) (div (mul (Fin d) (Fin w)) (Fin w))).
Proof.
  intros Hw Hd. exists w, d.
  split; [exact Hw | split; [exact Hd | split; [reflexivity | split; [reflexivity |]]]].
  split; [reflexivity |].
  intros ->. cbn [ratio mul]. apply div_by_zero_weight. ring.
Qed.

(** A draw of [np.random.uniform(low, high)] with [low <= high] lies
    between the two bounds. *)
Lemma uniform_within (low high u : R) :
  low <= high -> 0 <= u < 1 -> low <= low + (high - low) * u <= high.
Proof. intros Hle Hu. split; nra. Qed.

Lemma make_items_generated (epsilon p_min p_max : R) (weights densities : list num) :
  0 <= epsilon -> p_min <= p_max ->
  Forall (fun x => exists u, 0 <= u < 1 /\ x = Fin (0 + (epsilon - 0) * u)) weights ->
  Forall (fun x => exists u, 0 <= u < 1 /\ x = Fin (p_min + (p_max - p_min) * u)) densities ->
  length weights = length densities ->
  Forall (Spec.generated epsilon p_min p_max)
         (Driver.make_items (Driver.times densities weights) weights).
Proof.
  intros Heps Hle Hws. revert densities.
  induction Hws as [| w0 weights (u & Hu & ->) _ IH]; intros densities Hds Hlen.
  - destruct densities; [constructor | discriminate].
  - destruct densities as [| d0 densities]; [discriminate |].
    inversion Hds as [| ? ? (u' & Hu' & ->) Hds']; subst.
    cbn. constructor.
    + apply generated_item; apply uniform_within; assumption.
    + apply IH; [assumption | cbn in Hlen; congruence].
Qed.

Lemma make_items_length (weights densities : list num) :
  length weights = length densities ->
  length (Driver.make_items (Driver.times densities weights) weights) = length weights.
Proof.
  intros Hlen. unfold Driver.make_items, Driver.times.
  rewrite length_map, length_combine, length_map, length_combine.
  rewrite Hlen, !Nat.min_id. reflexivity.
Qed.

Lemma trial_items_length (n : nat) (low high low' high' : R)
    (weights densities : list num) (adverserial : bool) :
  Driver.uniform low high n weights ->
  Driver.uniform low' high' n densities ->
  length (Driver.trial_items weights densities adverserial) = n.
Proof.
  intros [Hwn _] [Hdn _].
  assert (Hlen : length weights = length densities) by congruence.
  pose proof (make_items_length weights densities Hlen) as Hn.
  unfold Driver.trial_items. destruct adverserial; [| congruence].
  rewrite <- (Permutation_length (sorted_by_ratio_permutation _)). congruence.
Qed.

Lemma trial_items_generated (n : nat) (epsilon p_min p_max : R) (weights densities : list num)
    (adverserial : bool) :
  0 <= epsilon -> p_min <= p_max ->
  Driver.uniform 0 epsilon n weights ->
  Driver.uniform p_min p_max n densities ->
  Forall (Spec.generated epsilon p_min p_max)
         (Driver.trial_items weights densities adverserial).
Proof.
  intros Heps Hle [Hwn Hws] [Hdn Hds].
  assert (Hlen : length weights = length densities) by congruence.
  pose proof (make_items_generated epsilon p_min p_max weights densities
                Heps Hle Hws Hds Hlen) as Hgen.
  unfold Driver.trial_items. destruct adverserial; [| assumption].
  apply (Permutation_Forall (sorted_by_ratio_permutation _)). assumption.
Qed.

(** C9, as amended: from [n] weights and [n] densities drawn with
    [0 <= epsilon] and [p_min <= p_max], within the range where neither
    [p_max - p_min] nor a product overflows, [test] builds [n] items, each with
    the weight [w] drawn, in [[0, epsilon]] and possibly 0, the value
    [d * w] of its drawn density [d] in [[p_min, p_max]], and as ratio the
    quotient of that value by that weight as the code computes it, [nan]
    when [w = 0]; the ratio is not said to equal [d]. *)
Theorem generated_items (n : nat) (epsilon p_min p_max : R) (weights densities : list num)
    (adverserial : bool) :
  0 <= epsilon -> p_min <= p_max ->
  Binary64.draws_computed epsilon p_min p_max ->
  Driver.uniform 0 epsilon n weights ->
  Driver.uniform p_min p_max n densities ->
  length (Driver.trial_items weights densities adverserial) = n
  /\ Forall (Spec.generated epsilon p_min p_max)
            (Driver.trial_items weights densities adverserial).
Proof.
  intros Heps Hle _ Hws Hds. split.
  - apply (trial_items_length n 0 epsilon p_min p_max); assumption.
  - apply (trial_items_generated n); assumption.
Qed.

Lemma generated_items_witness :
  length (Driver.trial_items [Fin (0 + (5 / 100 - 0) * (1 / 5)); Fin (0 + (5 / 100 - 0) * 0)]
            [Fin (3 + (3 - 3) * (1 / 2)); Fin (3 + (3 - 3) * 0)] true) = 2%nat
  /\ Forall (Spec.generated (5 / 100) 3 3)
            (Driver.trial_items
               [Fin (0 + (5 / 100 - 0) * (1 / 5)); Fin (0 + (5 / 100 - 0) * 0)]
               [Fin (3 + (3 - 3) * (1 / 2)); Fin (3 + (3 - 3) * 0)] true).
Proof.
  apply generated_items; try lra.
  - apply draws_computed_small; lra.
  - split; [reflexivity |].
    repeat constructor; eexists; (split; [| reflexivity]); lra.
  - split; [reflexivity |].
    repeat constructor; eexists; (split; [| reflexivity]); lra.
Defined.

(** C9 as stated fails on both counts.  The weight: 0 is a possible draw,
    and gives an item of weight 0, not strictly positive, whose ratio is
    the division of 0 by 0.  The ratio: in binary64, for the density 3 and
    the weight 0.7 the quotient of the rounded product [3 * 0.7] by [0.7] is
    2.9999999999999996, not 3 and below [p_min = 3]. *)
Lemma generated_items_not_valid :
  (Driver.uniform 0 (5 / 100) 1 [Fin 0]
   /\ Driver.uniform 1 10 1 [Fin 1]
   /\ Driver.trial_items [Fin 0] [Fin 1] false = [mkItem (Fin (1 * 0)) (Fin 0) NaN]
   /\ ~ Forall (Spec.valid_item 1 10) (Driver.trial_items [Fin 0] [Fin 1] false))
  /\ map (fun item => (PrimFloat.eqb (Binary64.ratio item) 3%float,
                       PrimFloat.ltb (Binary64.ratio item) 3%float))
         (Binary64.make_items
            (Binary64.times [3%float] [0x1.6666666666666p-1%float])
            [0x1.6666666666666p-1%float])
     = [(false, true)].
Proof.
  assert (Hitems : Driver.trial_items [Fin 0] [Fin 1] false
                   = [mkItem (Fin (1 * 0)) (Fin 0) NaN]).
  { cbn. f_equal. f_equal.
    destruct (Req_dec_T 0 0) as [_ | H]; [| contradiction].
    assert (H1 : Rltb 0 (1 * 0) = false) by (apply Rltb_false; lra).
    assert (H2 : Rltb (1 * 0) 0 = false) by (apply Rltb_false; lra).
    rewrite H1, H2. reflexivity. }
  split; [split; [| split; [| split; [exact Hitems |]]] | reflexivity].
  - split; [reflexivity |]. repeat constructor. exists 0. split; [lra | f_equal; lra].
  - split; [reflexivity |]. repeat constructor. exists 0. split; [lra | f_equal; lra].
  - rewrite Hitems. intros H. inversion H as [| item l Hitem Hl]; subst.
    destruct Hitem as (_ & Hpos & _). simpl in Hpos. lra.
Qed.

(** ** The relaxation has an optimum *)

Section Duality.

Variable lam : R.

(** Term by term, no admissible fraction beats a saturating one on the
    value net of the price of the weight. *)
Lemma saturates_best (items : list Item) (xs x : list R) :
  Forall2 (Spec.saturates lam) items xs ->
  length x = length items ->
  Forall (fun xi => 0 <= xi <= 1) x ->
  Forall (fun xi => 0 <= xi <= 1) xs ->
  LP.dot (Spec.values items) x - lam * LP.dot (Spec.weights items) x
  <= LP.dot (Spec.values items) xs - lam * LP.dot (Spec.weights items) xs.
Proof.
  intros Hsat. revert x.
  induction Hsat as [| item x0s items xs [Hhi Hlo] _ IH]; intros x Hlen Hx Hxs.
  - destruct x; [cbn; lra | discriminate].
  - destruct x as [| x0 x]; [discriminate |].
    inversion Hx as [| ? ? Hx0 Hx']; subst. inversion Hxs as [| ? ? Hx0s Hxs']; subst.
    cbn in Hlen. injection Hlen as Hlen.
    specialize (IH x Hlen Hx' Hxs').
    change (Spec.values (item :: items))
      with (Spec.to_R (value item) :: Spec.values items).
    change (Spec.weights (item :: items))
      with (Spec.to_R (weight item) :: Spec.weights items).
    rewrite !dot_cons.
    set (v := Spec.to_R (value item)) in *. set (w := Spec.to_R (weight item)) in *.
    assert (Hterm : (v - lam * w) * x0 <= (v - lam * w) * x0s).
    { destruct (Rtotal_order (v - lam * w) 0) as [Hneg | [Hzero | Hpos]].
      - rewrite (Hlo Hneg). nra.
      - rewrite Hzero. lra.
      - rewrite (Hhi Hpos). nra. }
    lra.
Qed.

End Duality.

(** Weak duality: a priced point is an optimum of the relaxation. *)
Lemma priced_optimum (items : list Item) (max_weight : R) (xs : list R) (lam : R) :
  Spec.priced items max_weight xs lam ->
  Spec.optimum items max_weight (LP.dot (Spec.values items) xs).
Proof.
  intros (Hadm & Hlam & Hslack & Hsat). split.
  - exists xs. split; [assumption | reflexivity].
  - intros x (Hlen & Hx & Hrow).
    destruct Hadm as (_ & Hxs & _).
    pose proof (saturates_best lam items xs x Hsat Hlen Hx Hxs) as Hbest.
    assert (lam * LP.dot (Spec.weights items) x <= lam * max_weight)
      by (apply Rmult_le_compat_l; assumption).
    lra.
Qed.

Lemma dot_repeat_zero (l : list R) (n : nat) : LP.dot l (repeat 0 n) = 0.
Proof.
  revert n. induction l as [| a l IH]; intros [| n]; try reflexivity.
  cbn [repeat]. rewrite dot_cons, IH. lra.
Qed.

Lemma bounds_repeat_zero (n : nat) : Forall (fun xi => 0 <= xi <= 1) (repeat 0 n).
Proof. apply Forall_forall. intros xi Hin. apply repeat_spec in Hin. lra. Qed.

Lemma density_value (item : Item) :
  0 < Spec.to_R (weight item) ->
  Spec.to_R (value item) = Spec.density item * Spec.to_R (weight item).
Proof. intros Hw. unfold Spec.density. field. lra. Qed.

(** Items whose density is at most the price are left out. *)
Lemma saturates_zero (lam : R) (items : list Item) :
  Forall (fun item => 0 < Spec.to_R (weight item)) items ->
  Forall (fun item => Spec.density item <= lam) items ->
  Forall2 (Spec.saturates lam) items (repeat 0 (length items)).
Proof.
  induction 1 as [| item items Hw _ IH]; intros Hd; cbn [length repeat].
  - constructor.
  - inversion Hd as [| ? ? Hd0 Hd']; subst. constructor; [| apply IH; assumption].
    split; [| reflexivity]. intros Hpos. exfalso.
    rewrite (density_value item Hw) in Hpos. nra.
Qed.

(** The greedy fill of the items in order of decreasing density is priced:
    whole items while they fit, then a fraction of the first that does not,
    at whose density the price is set. *)
Lemma priced_sorted (items : list Item) :
  Forall (fun item => 0 < Spec.to_R (weight item)) items ->
  StronglySorted (fun a b => Spec.density b <= Spec.density a) items ->
  forall max_weight, 0 <= max_weight ->
  exists x lam,
    Spec.priced items max_weight x lam
    /\ (forall bound, 0 <= bound ->
          Forall (fun item => Spec.density item <= bound) items -> lam <= bound).
Proof.
  intros Hws Hsorted.
  induction Hsorted as [| item items _ IH Hhead]; intros max_weight HW.
  - exists [], 0. split.
    + split; [| split; [lra | split; [| constructor]]].
      * split; [reflexivity | split; [constructor | cbn; lra]].
      * cbn. lra.
    + intros bound Hb _. assumption.
  - inversion Hws as [| ? ? Hw Hws']; subst. specialize (IH Hws').
    pose proof (density_value item Hw) as Hv.
    change (Spec.weights (item :: items))
      with (Spec.to_R (weight item) :: Spec.weights items) in *.
    set (w := Spec.to_R (weight item)) in *.
    destruct (Rle_dec (Spec.density item) 0) as [Hnonpos | Hpos].
    + (* nothing is worth taking *)
      exists (repeat 0 (length (item :: items))), 0. split.
      * split; [| split; [lra | split; [lra |]]].
        -- split; [apply repeat_length | split; [apply bounds_repeat_zero |]].
           rewrite dot_repeat_zero. assumption.
        -- apply saturates_zero; [assumption |].
           constructor; [assumption |].
           eapply Forall_impl; [| exact Hhead]. cbv beta. intros. lra.
      * intros bound Hb _. assumption.
    + apply Rnot_le_lt in Hpos.
      destruct (Rle_dec w max_weight) as [Hfits | Hbig].
      * (* the item fits: take it whole and fill the rest *)
        destruct (IH (max_weight - w) ltac:(lra)) as (x & lam & Hpriced & Hbound).
        destruct Hpriced as ((Hlen & Hx & Hrow) & Hlam & Hslack & Hsat).
        pose proof (Hbound (Spec.density item) (Rlt_le _ _ Hpos) Hhead) as Hprice.
        exists (1 :: x), lam. split.
        -- split; [| split; [assumption | split]].
           ++ split; [cbn; congruence | split; [constructor; [lra | assumption] |]].
              change (Spec.weights (item :: items))
                with (w :: Spec.weights items).
              rewrite dot_cons. lra.
           ++ change (Spec.weights (item :: items))
                with (w :: Spec.weights items).
              rewrite dot_cons. rewrite <- Hslack. ring.
           ++ constructor; [| assumption].
              split; [reflexivity |]. intros Hneg. exfalso.
              rewrite Hv in Hneg. fold w in Hneg. nra.
        -- intros bound Hb Hall. inversion Hall; subst. apply Hbound; assumption.
      * (* the item does not fit: take the fraction that does *)
        apply Rnot_le_lt in Hbig.
        exists (max_weight / w :: repeat 0 (length items)), (Spec.density item). split.
        -- split; [| split; [lra | split]].
           ++ split; [cbn; rewrite repeat_length; reflexivity | split].
              ** constructor; [| apply bounds_repeat_zero].
                 split.
                 --- apply Rmult_le_pos; [assumption |].
                     left. apply Rinv_0_lt_compat. assumption.
                 --- apply Rmult_le_reg_r with (r := w); [assumption |].
                     unfold Rdiv. rewrite Rmult_assoc, Rinv_l by lra. lra.
              ** change (Spec.weights (item :: items))
                   with (w :: Spec.weights items).
                 rewrite dot_cons, dot_repeat_zero.
                 right. field. lra.
           ++ change (Spec.weights (item :: items))
                with (w :: Spec.weights items).
              rewrite dot_cons, dot_repeat_zero.
              replace (w * (max_weight / w)) with max_weight by (field; lra). ring.
           ++ constructor.
              ** unfold Spec.saturates. rewrite Hv. fold w.
                 split; intros H; exfalso; lra.
              ** apply saturates_zero; assumption.
        -- intros bound Hb Hall. inversion Hall; subst. assumption.
Qed.

Lemma sorted_insert (item : Item) (items : list Item) :
  StronglySorted (fun a b => Spec.density b <= Spec.density a) items ->
  exists items',
    Permutation (item :: items) items'
    /\ StronglySorted (fun a b => Spec.density b <= Spec.density a) items'.
Proof.
  induction 1 as [| item' items Hsorted IH Hhead].
  - exists [item]. split; [apply Permutation_refl | repeat constructor].
  - destruct (Rle_dec (Spec.density item') (Spec.density item)) as [Hle | Hgt].
    + exists (item :: item' :: items). split; [apply Permutation_refl |].
      constructor; [constructor; assumption |].
      constructor; [assumption |].
      eapply Forall_impl; [| exact Hhead]. cbv beta. intros. lra.
    + apply Rnot_le_lt in Hgt.
      destruct IH as (items' & Hperm & Hsorted').
      exists (item' :: items'). split.
      * eapply perm_trans; [apply perm_swap |]. apply perm_skip. assumption.
      * constructor; [assumption |].
        apply (Permutation_Forall Hperm). constructor; [lra | assumption].
Qed.

Lemma sorted_exists (items : list Item) :
  exists items',
    Permutation items items'
    /\ StronglySorted (fun a b => Spec.density b <= Spec.density a) items'.
Proof.
  induction items as [| item items (items' & Hperm & Hsorted)].
  - exists []. split; constructor.
  - destruct (sorted_insert item items' Hsorted) as (items'' & Hperm' & Hsorted').
    exists items''. split; [| assumption].
    eapply perm_trans; [apply perm_skip; exact Hperm | exact Hperm'].
Qed.

(** The optimum does not depend on the order of the items. *)
Lemma optimum_permutation (items items' : list Item) (max_weight m : R) :
  Permutation items items' ->
  Spec.optimum items max_weight m -> Spec.optimum items' max_weight m.
Proof.
  intros Hperm [(x & Hadm & Hval) Hmax]. split.
  - destruct (admissible_permutation _ _ _ _ Hperm Hadm) as (x' & Hadm' & Hval').
    exists x'. split; [assumption | congruence].
  - intros x' Hadm'.
    destruct (admissible_permutation _ _ _ _ (Permutation_sym Hperm) Hadm')
      as (x'' & Hadm'' & Hval'').
    rewrite <- Hval''. apply Hmax. assumption.
Qed.

(** Items of positive weight under a budget [>= 0]: the relaxation has an
    optimum. *)
Lemma optimum_exists (items : list Item) (max_weight : R) :
  Forall (fun item => 0 < Spec.to_R (weight item)) items ->
  0 <= max_weight ->
  exists m, Spec.optimum items max_weight m.
Proof.
  intros Hws HW.
  destruct (sorted_exists items) as (items' & Hperm & Hsorted).
  pose proof (Permutation_Forall Hperm Hws) as Hws'.
  destruct (priced_sorted items' Hws' Hsorted max_weight HW) as (x & lam & Hpriced & _).
  exists (LP.dot (Spec.values items') x).
  apply (optimum_permutation items' items); [apply Permutation_sym; assumption |].
  apply (priced_optimum items' max_weight x lam). assumption.
Qed.

(** ** What the offline optimizer returns *)

(** On a list, not empty, of items of real values and positive weights and
    a budget [>= 0] the relaxation has an optimum [m >= 0], and
    [offline_knapsack] returns the solver's minimum of the negated
    objective as it is: [- m], and nothing else.  The caller negates it
    ([offline = -offline_knapsack(...)] in [test]). *)
Lemma offline_knapsack_value (items : list Item) (max_weight : R) :
  items <> [] ->
  Forall (fun item => Spec.finite_item item /\ 0 < Spec.to_R (weight item)) items ->
  0 <= max_weight ->
  exists m,
    Spec.optimum items max_weight m
    /\ 0 <= m
    /\ offline_knapsack items max_weight (Fin (- m))
    /\ (forall res, offline_knapsack items max_weight res ->
          res = Fin (- m) /\ neg res = Fin m).
Proof.
  intros Hne Hitems HW.
  assert (Hws : Forall (fun item => 0 < Spec.to_R (weight item)) items).
  { eapply Forall_impl; [| exact Hitems]. cbv beta. intros item [_ H]. exact H. }
  assert (Hvals : Forall (fun item => Spec.finite (value item)) items).
  { eapply Forall_impl; [| exact Hitems]. cbv beta. intros item [(H & _ & _) _]. exact H. }
  assert (Hfin : Forall (fun item => Spec.finite (weight item)) items).
  { eapply Forall_impl; [| exact Hitems]. cbv beta. intros item [(_ & H & _) _]. exact H. }
  destruct (optimum_exists items max_weight Hws HW) as [m Hopt].
  exists m. split; [assumption | split; [| split]].
  - apply (optimum_nonneg items max_weight); assumption.
  - apply offline_knapsack_intro; assumption.
  - intros res Hres.
    destruct (offline_knapsack_inv items max_weight res Hres) as (m' & -> & Hopt' & _ & _).
    rewrite (optimum_unique _ _ _ _ Hopt' Hopt). split; [reflexivity |].
    simpl. f_equal. lra.
Qed.

(** C4: the claim fails on the code.  For one item of value 1 and weight 1
    under budget 1 the optimum of the relaxation is 1, the comment above
    the last line of [offline_knapsack] says that the maximum is returned,
    and [return result.fun] returns [-1], and nothing else: a number that is
    neither non-negative nor the maximum. *)
Lemma offline_knapsack_not_maximum :
  Spec.optimum [mkItem (Fin 1) (Fin 1) (Fin 1)] 1 1
  /\ offline_knapsack [mkItem (Fin 1) (Fin 1) (Fin 1)] 1 (Fin (- (1)))
  /\ (forall res, offline_knapsack [mkItem (Fin 1) (Fin 1) (Fin 1)] 1 res -> res = Fin (- (1)))
  /\ ~ (exists m, Fin (- (1)) = Fin m /\ 0 <= m
                  /\ Spec.optimum [mkItem (Fin 1) (Fin 1) (Fin 1)] 1 m).
Proof.
  split; [exact optimum_single | split; [exact offline_knapsack_single | split]].
  - intros res Hres.
    destruct (offline_knapsack_inv _ _ _ Hres) as (m & -> & Hopt & _ & _).
    rewrite (optimum_unique _ _ _ _ Hopt optimum_single). reflexivity.
  - intros (m & Heq & Hm & _). injection Heq as Heq. lra.
Qed.

(** * Further properties of the code *)

(** ** Items at or below the floor density *)

(** Whatever the accepted weight, the threshold is not below [p_min]: it is
    [p_min], a larger number, [inf] or [nan]. *)
Lemma threshold_not_below (p_min b : R) (a : num) :
  0 < p_min -> 0 <= b ->
  ltb (threshold p_min (Fin b) a) (Fin p_min) = false.
Proof.
  intros Hmin Hb.
  assert (Hrefl : Rltb p_min p_min = false) by (apply Rltb_false; lra).
  assert (Hpos : Rltb 0 p_min = true) by (apply Rltb_true; assumption).
  assert (Hb0 : Rltb b 0 = false) by (apply Rltb_false; assumption).
  unfold threshold. destruct a as [a | | |].
  - simpl ltb at 2. destruct (Rltb a b) eqn:Hlt; [exact Hrefl |].
    apply Rltb_false in Hlt. simpl div.
    destruct (Req_dec_T b 0) as [-> | Hnz].
    + destruct (Rltb 0 a) eqn:Ha.
      * simpl. unfold inf_times. rewrite Hpos. reflexivity.
      * assert (Ha' : Rltb a 0 = false) by (apply Rltb_false; assumption).
        rewrite Ha'. reflexivity.
    + simpl. apply Rltb_false.
      assert (Hbpos : 0 < b) by lra.
      pose proof (div_ge_1 a b Hbpos Hlt) as Hq.
      pose proof (exp_ge_1 (a / b + - (1))) as He. nra.
  - simpl. rewrite Hb0. simpl. unfold inf_times. rewrite Hpos. reflexivity.
  - simpl. exact Hrefl.
  - reflexivity.
Qed.

Lemma ltb_chain (t r : num) (p : R) :
  ltb t (Fin p) = false -> ltb (Fin p) r = false -> ltb t r = false.
Proof.
  destruct t as [t | | |], r as [r | | |]; simpl; intros Ht Hr;
    try reflexivity; try discriminate.
  apply Rltb_false in Ht. apply Rltb_false in Hr. apply Rltb_false. lra.
Qed.

Section Floor.

Variables (p_min max_weight b : R).
Hypothesis p_min_pos : 0 < p_min.
Hypothesis b_nonneg : 0 <= b.

Lemma accepts_floor (st : state) (item : Item) :
  gtb (ratio item) (Fin p_min) = false ->
  accepts p_min max_weight (Fin b) st item = false.
Proof.
  intros Hratio. unfold accepts. apply andb_false_intro1.
  unfold gtb in *. apply ltb_chain with (p := p_min); [| assumption].
  apply threshold_not_below; assumption.
Qed.

Lemma run_floor (items : list Item) (st : state) :
  Forall (fun item => gtb (ratio item) (Fin p_min) = false) items ->
  run p_min max_weight (Fin b) items st = st.
Proof.
  intros H. revert st. induction H as [| item items Hitem _ IH]; intros st.
  - reflexivity.
  - rewrite run_cons. unfold step. rewrite accepts_floor by assumption. apply IH.
Qed.

End Floor.

(** X2: with [0 < p_min <= p_max] and [max_weight >= 0], an item whose
    ratio is not above [p_min] (at most [p_min], or [nan]) is rejected in
    every state of the run, and a stream of such items returns 0. *)
Theorem floor_density_rejected (p_min p_max max_weight : R) :
  0 < p_min -> p_min <= p_max -> 0 <= max_weight ->
  (forall st item,
     gtb (ratio item) (Fin p_min) = false ->
     accepts p_min max_weight (beta_of (p_max / p_min) max_weight) st item = false)
  /\ (forall items,
        Forall (fun item => gtb (ratio item) (Fin p_min) = false) items ->
        online_knapsack items p_min p_max max_weight = Ok (Fin 0)).
Proof.
  intros Hmin Hle HW.
  pose proof (beta_nonneg p_min p_max max_weight Hmin Hle HW) as Hb.
  split.
  - intros st item Hitem. rewrite beta_of_valid by assumption.
    apply accepts_floor; assumption.
  - intros items Hitems. unfold online_knapsack.
    rewrite py_div_nonzero by lra. cbv beta iota delta [bind].
    rewrite beta_of_valid by assumption.
    rewrite run_floor by assumption. reflexivity.
Qed.

Lemma floor_density_rejected_witness :
  (forall st item,
     gtb (ratio item) (Fin 1) = false ->
     accepts 1 1 (beta_of (5 / 1) 1) st item = false)
  /\ (forall items,
        Forall (fun item => gtb (ratio item) (Fin 1) = false) items ->
        online_knapsack items 1 5 1 = Ok (Fin 0)).
Proof. apply floor_density_rejected; lra. Defined.

(** ** A budget of zero *)

Lemma beta_zero_capacity (q : R) : beta_of q 0 = NaN \/ beta_of q 0 = Fin 0.
Proof.
  unfold beta_of. simpl log.
  assert (H00 : Rltb 0 0 = false) by (apply Rltb_false; lra).
  destruct (Rltb 0 q).
  - simpl. destruct (Req_dec_T (1 + ln q) 0).
    + rewrite H00. left. reflexivity.
    + right. f_equal. unfold Rdiv. ring.
  - destruct (Rltb q 0); simpl; [left | right]; reflexivity.
Qed.

Lemma threshold_zero_capacity (p_min q : R) : threshold p_min (beta_of q 0) (Fin 0) = NaN.
Proof.
  assert (H00 : Rltb 0 0 = false) by (apply Rltb_false; lra).
  unfold threshold. destruct (beta_zero_capacity q) as [-> | ->].
  - reflexivity.
  - simpl ltb. rewrite H00, div_zero_zero. reflexivity.
Qed.

Lemma run_zero_capacity (p_min q : R) (items : list Item) :
  run p_min 0 (beta_of q 0) items init = init.
Proof.
  induction items as [| item items IH]; [reflexivity |].
  rewrite run_cons. unfold step, accepts. cbn [y init].
  rewrite threshold_zero_capacity.
  replace (gtb (ratio item) NaN) with false by (destruct (ratio item); reflexivity).
  exact IH.
Qed.

(** X3: with [max_weight = 0] and [p_min <> 0] the online algorithm accepts
    nothing and returns 0 for every stream, items of weight 0 included: the
    threshold of the first test is [0/0 = nan]. *)
Theorem zero_capacity_returns_zero (items : list Item) (p_min p_max : R) :
  p_min <> 0 ->
  online_knapsack items p_min p_max 0 = Ok (Fin 0).
Proof.
  intros Hmin. unfold online_knapsack. rewrite py_div_nonzero by assumption.
  cbv beta iota delta [bind]. rewrite run_zero_capacity. reflexivity.
Qed.

Lemma zero_capacity_returns_zero_witness :
  online_knapsack [mkItem (Fin 3) (Fin 0) PInf] 1 5 0 = Ok (Fin 0).
Proof. apply zero_capacity_returns_zero. lra. Defined.

(** ** The thresholds of successive iterations *)

Lemma le_trans (a b c : num) : Spec.le a b -> Spec.le b c -> Spec.le a c.
Proof.
  unfold Spec.le. destruct a as [a | | |], b as [b | | |], c as [c | | |]; simpl;
    intros Hab Hbc; try reflexivity; try discriminate.
  apply Rleb_true in Hab. apply Rleb_true in Hbc. apply Rleb_true. lra.
Qed.

Lemma le_fin (a b : R) : Spec.le (Fin a) (Fin b) <-> a <= b.
Proof. unfold Spec.le. simpl. apply Rleb_true. Qed.

Section Growth.

Variables (p_min max_weight : R) (beta : num).

(** Over weights [>= 0] the accepted weight is a real number that does
    not decrease and stays within the budget. *)
Lemma step_weight_grows (st : state) (item : Item) (a : R) :
  y st = Fin a -> 0 <= a <= max_weight ->
  Spec.le (Fin 0) (weight item) ->
  exists a', y (step p_min max_weight beta st item) = Fin a' /\ a <= a' <= max_weight.
Proof.
  intros Hy Ha Hw. unfold step.
  destruct (accepts p_min max_weight beta st item) eqn:Hacc.
  - unfold accepts in Hacc. apply andb_prop in Hacc. destruct Hacc as [_ Hfit].
    rewrite Hy in Hfit. cbn [y]. rewrite Hy.
    destruct (weight item) as [w | | |]; simpl in Hfit, Hw; try discriminate.
    apply le_fin in Hw. apply Rleb_true in Hfit.
    exists (a + w). split; [reflexivity | lra].
  - exists a. split; [assumption | lra].
Qed.

End Growth.

Lemma thresholds_sorted_from (p_min max_weight b : R) (items : list Item) :
  0 < p_min -> 0 < b ->
  Forall (fun item => Spec.le (Fin 0) (weight item)) items ->
  forall st a,
    y st = Fin a -> 0 <= a <= max_weight ->
    StronglySorted Spec.le (thresholds p_min max_weight (Fin b) items st)
    /\ Forall (Spec.le (threshold p_min (Fin b) (Fin a)))
              (thresholds p_min max_weight (Fin b) items st).
Proof.
  intros Hmin Hb Hws.
  induction Hws as [| item items Hw _ IH]; intros st a Hy Ha; cbn [thresholds].
  - split; constructor.
  - destruct (step_weight_grows p_min max_weight (Fin b) st item a Hy Ha Hw)
      as (a' & Hy' & Ha').
    destruct (IH _ a' Hy' ltac:(lra)) as [Hsorted Hall].
    assert (Hmono : Spec.le (threshold p_min (Fin b) (Fin a))
                            (threshold p_min (Fin b) (Fin a'))).
    { rewrite !threshold_fin by lra. apply le_fin.
      apply real_threshold_monotone; lra. }
    assert (Hall' : Forall (Spec.le (threshold p_min (Fin b) (Fin a)))
                      (thresholds p_min max_weight (Fin b) items
                         (step p_min max_weight (Fin b) st item))).
    { eapply Forall_impl; [| exact Hall]. cbv beta. intros t Ht.
      eapply le_trans; eassumption. }
    rewrite Hy. split.
    + constructor; assumption.
    + constructor; [| assumption].
      rewrite threshold_fin by lra. apply le_fin. lra.
Qed.

(** X4: with [0 < p_min <= p_max], [max_weight > 0] within the range where
    the computed [beta] is a positive number (no overflow of
    [p_max / p_min], [max_weight] a normal number), and weights [>= 0], the
    thresholds computed by the successive iterations of the loop never
    decrease. *)
Theorem thresholds_nondecreasing (items : list Item) (p_min p_max max_weight : R) :
  0 < p_min -> p_min <= p_max -> 0 < max_weight ->
  Binary64.beta_computed p_min p_max max_weight ->
  Forall (fun item => Spec.le (Fin 0) (weight item)) items ->
  StronglySorted Spec.le
    (thresholds p_min max_weight (beta_of (p_max / p_min) max_weight) items init).
Proof.
  intros Hmin Hle HW _ Hws. rewrite beta_of_valid by assumption.
  pose proof (beta_pos p_min p_max max_weight Hmin Hle HW) as Hb.
  apply (thresholds_sorted_from p_min max_weight _ items Hmin Hb Hws init 0);
    [reflexivity | lra].
Qed.

Lemma thresholds_nondecreasing_witness :
  StronglySorted Spec.le (thresholds 1 1 (beta_of (5 / 1) 1) scenario init).
Proof.
  apply thresholds_nondecreasing; try lra.
  - exact beta_computed_example.
  - repeat constructor; apply le_fin; lra.
Defined.

(** ** The value returned *)

Lemma dot_nonneg (l x : list R) :
  Forall (fun a => 0 <= a) l -> Forall (fun xi => 0 <= xi <= 1) x -> 0 <= LP.dot l x.
Proof.
  intros Hl. revert x. induction Hl as [| a l Ha _ IH]; intros x Hx.
  - cbn. lra.
  - destruct x as [| x0 x]; [cbn; lra |].
    inversion Hx as [| ? ? Hx0 Hx']; subst. rewrite dot_cons.
    specialize (IH x Hx'). nra.
Qed.





(** ** All or nothing *)

Section Decomposition.

Variables (p_min max_weight : R) (beta : num).

Lemma run_taken (items : list Item) :
  Forall (fun item => Spec.finite (value item)) items ->
  Forall (fun item => Spec.finite (weight item)) items ->
  forall a t,
    run p_min max_weight beta items (mkState (Fin a) (Fin t))
    = mkState
        (Fin (a + LP.dot (Spec.weights items)
                    (taken (decisions p_min max_weight beta items (mkState (Fin a) (Fin t))))))
        (Fin (t + LP.dot (Spec.values items)
                    (taken (decisions p_min max_weight beta items (mkState (Fin a) (Fin t)))))).
Proof.
  intros Hvals. induction Hvals as [| item items [v Hv] _ IH]; intros Hws a t.
  - cbn. f_equal; f_equal; lra.
  - inversion Hws as [| ? ? [w Hw] Hws']; subst.
    rewrite run_cons. cbn [decisions taken map].
    change (Spec.weights (item :: items))
      with (Spec.to_R (weight item) :: Spec.weights items).
    change (Spec.values (item :: items))
      with (Spec.to_R (value item) :: Spec.values items).
    rewrite !dot_cons. unfold step.
    destruct (accepts p_min max_weight beta (mkState (Fin a) (Fin t)) item).
    + cbn [y total_value]. rewrite Hw, Hv. cbn [add Spec.to_R].
      rewrite (IH Hws'). fold (taken (decisions p_min max_weight beta items
                                        (mkState (Fin (a + w)) (Fin (t + v))))).
      f_equal; f_equal; lra.
    + rewrite (IH Hws'). fold (taken (decisions p_min max_weight beta items
                                        (mkState (Fin a) (Fin t)))).
      f_equal; f_equal; lra.
Qed.

End Decomposition.

(** X6: on items of real values and weights, with [p_min <> 0], the value
    returned by the online algorithm is exactly the sum of the values of
    the items whose acceptance test succeeded, and the final accepted weight
    the sum of their weights: no item is taken in part. *)
Theorem online_value_is_sum_of_accepted (items : list Item) (p_min p_max max_weight : R) :
  p_min <> 0 ->
  Forall (fun item => Spec.finite (value item)) items ->
  Forall (fun item => Spec.finite (weight item)) items ->
  online_knapsack items p_min p_max max_weight
  = Ok (Fin (LP.dot (Spec.values items)
               (taken (decisions p_min max_weight (beta_of (p_max / p_min) max_weight)
                         items init))))
  /\ y (run p_min max_weight (beta_of (p_max / p_min) max_weight) items init)
     = Fin (LP.dot (Spec.weights items)
              (taken (decisions p_min max_weight (beta_of (p_max / p_min) max_weight)
                        items init))).
Proof.
  intros Hmin Hvals Hws. unfold online_knapsack.
  rewrite py_div_nonzero by assumption. cbv beta iota delta [bind]. unfold init.
  rewrite (run_taken p_min max_weight _ items Hvals Hws 0 0). cbn [y total_value].
  split; f_equal; f_equal; lra.
Qed.

Lemma online_value_is_sum_of_accepted_witness :
  online_knapsack scenario 1 5 1
  = Ok (Fin (LP.dot (Spec.values scenario)
               (taken (decisions 1 1 (beta_of (5 / 1) 1) scenario init))))
  /\ y (run 1 1 (beta_of (5 / 1) 1) scenario init)
     = Fin (LP.dot (Spec.weights scenario)
              (taken (decisions 1 1 (beta_of (5 / 1) 1) scenario init))).
Proof.
  apply online_value_is_sum_of_accepted.
  - lra.
  - repeat constructor; eexists; reflexivity.
  - repeat constructor; eexists; reflexivity.
Defined.

(** ** Streams that do not fit, streams that fit *)

Lemma run_nothing_fits (p_min max_weight : R) (beta : num) (items : list Item) :
  Forall (fun item => exists w, weight item = Fin w /\ max_weight < w) items ->
  run p_min max_weight beta items init = init.
Proof.
  induction 1 as [| item items (w & Hw & Hbig) _ IH]; [reflexivity |].
  rewrite run_cons. unfold step, accepts. cbn [y init]. rewrite Hw. simpl add. simpl leb.
  assert (Hfit : Rleb (0 + w) max_weight = false) by (apply Rleb_false; lra).
  rewrite Hfit, andb_false_r. exact IH.
Qed.

(** X7: when every item is heavier than the whole budget, the online
    algorithm accepts none and returns 0. *)
Theorem nothing_fits_returns_zero (items : list Item) (p_min p_max max_weight : R) :
  p_min <> 0 ->
  Forall (fun item => exists w, weight item = Fin w /\ max_weight < w) items ->
  online_knapsack items p_min p_max max_weight = Ok (Fin 0).
Proof.
  intros Hmin Hitems. unfold online_knapsack.
  rewrite py_div_nonzero by assumption. cbv beta iota delta [bind].
  rewrite run_nothing_fits by assumption. reflexivity.
Qed.

Lemma nothing_fits_returns_zero_witness :
  online_knapsack [mkItem (Fin 8) (Fin 2) (Fin 4); mkItem (Fin 9) (Fin 3) (Fin 3)] 1 5 1
  = Ok (Fin 0).
Proof.
  apply nothing_fits_returns_zero; [lra |].
  repeat constructor; eexists; (split; [reflexivity | lra]).
Defined.

Lemma dot_ones (l : list R) : LP.dot l (repeat 1 (length l)) = fold_right Rplus 0 l.
Proof.
  induction l as [| a l IH]; [reflexivity |].
  cbn [length repeat fold_right]. rewrite dot_cons, IH. lra.
Qed.

Lemma dot_le_sum (l x : list R) :
  Forall (fun a => 0 <= a) l -> Forall (fun xi => 0 <= xi <= 1) x ->
  LP.dot l x <= fold_right Rplus 0 l.
Proof.
  intros Hl. revert x. induction Hl as [| a l Ha Hl' IH]; intros x Hx.
  - cbn. lra.
  - destruct x as [| x0 x].
    + cbn [fold_right]. assert (0 <= fold_right Rplus 0 l).
      { clear IH. induction Hl' as [| b l Hb _ IH']; cbn; lra. }
      cbn. lra.
    + inversion Hx as [| ? ? Hx0 Hx']; subst. rewrite dot_cons. cbn [fold_right].
      specialize (IH x Hx'). nra.
Qed.

(** When the whole stream fits in the budget and no value is negative, the
    optimum of the relaxation is the total value. *)
Lemma optimum_all_fit (items : list Item) (max_weight : R) :
  Forall (fun item => 0 <= Spec.to_R (value item)) items ->
  fold_right Rplus 0 (Spec.weights items) <= max_weight ->
  Spec.optimum items max_weight (fold_right Rplus 0 (Spec.values items)).
Proof.
  intros Hvals Hfit.
  assert (Hlenv : length (Spec.values items) = length items)
    by (unfold Spec.values; apply length_map).
  assert (Hlenw : length (Spec.weights items) = length items)
    by (unfold Spec.weights; apply length_map).
  split.
  - exists (repeat 1 (length items)). split.
    + split; [apply repeat_length | split].
      * apply Forall_forall. intros xi Hin. apply repeat_spec in Hin. lra.
      * rewrite <- Hlenw, dot_ones. assumption.
    + rewrite <- Hlenv, dot_ones. reflexivity.
  - intros x (_ & Hx & _). apply dot_le_sum; [| assumption].
    unfold Spec.values. apply Forall_map. assumption.
Qed.

(** X8: when the items, at least one, of real values [>= 0] and real
    weights, all fit together in the budget, [offline_knapsack] returns
    minus their total value, and nothing else. *)
Theorem offline_knapsack_all_fit (items : list Item) (max_weight : R) :
  items <> [] ->
  Forall (fun item => Spec.finite (value item) /\ 0 <= Spec.to_R (value item)) items ->
  Forall (fun item => Spec.finite (weight item)) items ->
  fold_right Rplus 0 (Spec.weights items) <= max_weight ->
  offline_knapsack items max_weight (Fin (- fold_right Rplus 0 (Spec.values items)))
  /\ (forall res, offline_knapsack items max_weight res ->
        res = Fin (- fold_right Rplus 0 (Spec.values items))).
Proof.
  intros Hne Hvals Hfin Hfit.
  assert (Hfinv : Forall (fun item => Spec.finite (value item)) items)
    by (eapply Forall_impl; [| exact Hvals]; cbv beta; tauto).
  assert (Hpos : Forall (fun item => 0 <= Spec.to_R (value item)) items)
    by (eapply Forall_impl; [| exact Hvals]; cbv beta; tauto).
  pose proof (optimum_all_fit items max_weight Hpos Hfit) as Hopt.
  split.
  - apply offline_knapsack_intro; assumption.
  - intros res Hres.
    destruct (offline_knapsack_inv items max_weight res Hres) as (m & -> & Hopt' & _ & _).
    rewrite (optimum_unique _ _ _ _ Hopt' Hopt). reflexivity.
Qed.

Lemma offline_knapsack_all_fit_witness :
  offline_knapsack scenario 2 (Fin (- fold_right Rplus 0 (Spec.values scenario)))
  /\ (forall res, offline_knapsack scenario 2 res ->
        res = Fin (- fold_right Rplus 0 (Spec.values scenario))).
Proof.
  apply offline_knapsack_all_fit.
  - discriminate.
  - repeat constructor; try (eexists; reflexivity); simpl; lra.
  - repeat constructor; eexists; reflexivity.
  - simpl. lra.
Defined.

(** X9: under a negative budget and weights [>= 0] the program built by
    [offline_knapsack] has no feasible point: the solver has no optimum to
    return. *)
Theorem offline_knapsack_negative_budget (items : list Item) (max_weight : R) :
  max_weight < 0 ->
  Forall (fun item => 0 <= Spec.to_R (weight item)) items ->
  ~ exists res, offline_knapsack items max_weight res.
Proof.
  intros HW Hws [res Hres].
  destruct (offline_knapsack_inv items max_weight res Hres)
    as (m & _ & [(x & (_ & Hx & Hrow) & _) _] & _ & _).
  assert (Hpos : Forall (fun a => 0 <= a) (Spec.weights items))
    by (unfold Spec.weights; apply Forall_map; assumption).
  pose proof (dot_nonneg _ x Hpos Hx). lra.
Qed.

Lemma offline_knapsack_negative_budget_witness :
  ~ exists res, offline_knapsack scenario (-1) res.
Proof.
  apply offline_knapsack_negative_budget; [lra |].
  repeat constructor; simpl; lra.
Defined.

Lemma permutation_nonempty (items items' : list Item) :
  Permutation items items' -> items <> [] -> items' <> [].
Proof.
  intros Hperm Hne ->. apply Hne. apply Permutation_nil.
  apply Permutation_sym. assumption.
Qed.

(** X10: the offline optimizer does not depend on the order of the items:
    on a reordering of the list it returns the same value. *)
Theorem offline_knapsack_permutation (items items' : list Item) (max_weight : R)
    (res : num) :
  Permutation items items' ->
  offline_knapsack items max_weight res ->
  offline_knapsack items' max_weight res.
Proof.
  intros Hperm Hres.
  pose proof (offline_knapsack_nonempty _ _ _ Hres) as Hne.
  destruct (offline_knapsack_inv items max_weight res Hres) as (m & -> & Hopt & Hvals & Hws).
  apply offline_knapsack_intro.
  - apply (permutation_nonempty items); assumption.
  - apply (Permutation_Forall Hperm). assumption.
  - apply (Permutation_Forall Hperm). assumption.
  - apply (optimum_permutation items items'); assumption.
Qed.

Lemma offline_knapsack_permutation_witness :
  offline_knapsack (rev scenario) 2 (Fin (- fold_right Rplus 0 (Spec.values scenario))).
Proof.
  apply (offline_knapsack_permutation scenario).
  - apply Permutation_rev.
  - apply offline_knapsack_intro.
    + discriminate.
    + repeat constructor; eexists; reflexivity.
    + repeat constructor; eexists; reflexivity.
    + apply optimum_all_fit; [repeat constructor; simpl; lra | simpl; lra].
Defined.

(** ** The adversarial order *)

Lemma ltb_total (a b : num) :
  a <> NaN -> b <> NaN -> ltb a b = false -> leb b a = true.
Proof.
  destruct a as [a | | |], b as [b | | |]; simpl; intros Ha Hb H;
    try reflexivity; try discriminate; try contradiction.
  apply Rltb_false in H. apply Rleb_true. assumption.
Qed.

Lemma ltb_leb (a b : num) : ltb a b = true -> leb a b = true.
Proof.
  destruct a as [a | | |], b as [b | | |]; simpl; intros H;
    try reflexivity; try discriminate.
  apply Rltb_true in H. apply Rleb_true. lra.
Qed.

Lemma leb_not_ltb (a b : num) : leb a b = true -> ltb b a = false.
Proof.
  destruct a as [a | | |], b as [b | | |]; simpl; intros H;
    try reflexivity; try discriminate.
  apply Rleb_true in H. apply Rltb_false. assumption.
Qed.

Lemma insert_by_ratio_sorted (item : Item) (sorted : list Item) :
  ratio item <> NaN ->
  Forall (fun item' => ratio item' <> NaN) sorted ->
  StronglySorted (fun a b => Spec.le (ratio a) (ratio b)) sorted ->
  StronglySorted (fun a b => Spec.le (ratio a) (ratio b))
                 (Driver.insert_by_ratio item sorted).
Proof.
  intros Hitem Hnan Hsorted.
  induction Hsorted as [| item' rest Hrest IH Hhead]; cbn [Driver.insert_by_ratio].
  - repeat constructor.
  - inversion Hnan as [| ? ? Hitem' Hnan']; subst.
    destruct (ltb (ratio item') (ratio item)) eqn:Hlt.
    + constructor; [apply IH; assumption |].
      apply (Permutation_Forall (insert_by_ratio_permutation item rest)).
      constructor; [apply ltb_leb; assumption | assumption].
    + pose proof (ltb_total _ _ Hitem' Hitem Hlt) as Hle.
      constructor; [constructor; assumption |].
      constructor; [exact Hle |].
      eapply Forall_impl; [| exact Hhead]. cbv beta. intros c Hc.
      eapply le_trans; [exact Hle | exact Hc].
Qed.

Lemma sorted_by_ratio_fixed (items : list Item) :
  StronglySorted (fun a b => Spec.le (ratio a) (ratio b)) items ->
  Driver.sorted_by_ratio items = items.
Proof.
  induction 1 as [| item items Hsorted IH Hhead]; [reflexivity |].
  cbn [Driver.sorted_by_ratio fold_right]. fold (Driver.sorted_by_ratio items).
  rewrite IH. destruct items as [| item' rest]; [reflexivity |].
  cbn [Driver.insert_by_ratio].
  inversion Hhead as [| ? ? Hle _]; subst.
  rewrite (leb_not_ltb _ _ Hle). reflexivity.
Qed.

Lemma sorted_by_ratio_ascending (items : list Item) :
  Forall (fun item => ratio item <> NaN) items ->
  StronglySorted (fun a b => Spec.le (ratio a) (ratio b)) (Driver.sorted_by_ratio items).
Proof.
  induction 1 as [| item items Hitem Hnan IH]; [constructor |].
  cbn [Driver.sorted_by_ratio fold_right]. fold (Driver.sorted_by_ratio items).
  apply insert_by_ratio_sorted; [assumption | | assumption].
  apply (Permutation_Forall (sorted_by_ratio_permutation items)). assumption.
Qed.

(** X12: on items whose ratio is not [nan], the adversarial order of
    [test] is the same items in ascending order of ratio. *)
Theorem adversarial_order_ascending (items : list Item) :
  Forall (fun item => ratio item <> NaN) items ->
  Permutation items (Driver.sorted_by_ratio items)
  /\ StronglySorted (fun a b => Spec.le (ratio a) (ratio b)) (Driver.sorted_by_ratio items).
Proof.
  intros Hnan. split; [apply sorted_by_ratio_permutation |].
  apply sorted_by_ratio_ascending. assumption.
Qed.

Lemma adversarial_order_ascending_witness :
  Permutation scenario (Driver.sorted_by_ratio scenario)
  /\ StronglySorted (fun a b => Spec.le (ratio a) (ratio b))
                    (Driver.sorted_by_ratio scenario).
Proof.
  apply adversarial_order_ascending.
  repeat constructor; discriminate.
Defined.

(** X13: a stream that arrives in ascending order of ratio is left as it
    is by the adversarial ordering, items of equal ratio included (so
    ordering an ordered stream again changes nothing). *)
Theorem adversarial_order_keeps_ascending (items : list Item) :
  StronglySorted (fun a b => Spec.le (ratio a) (ratio b)) items ->
  Driver.sorted_by_ratio items = items.
Proof. apply sorted_by_ratio_fixed. Qed.

Lemma adversarial_order_keeps_ascending_witness :
  Driver.sorted_by_ratio
    [mkItem (Fin 1) (Fin 1) (Fin 1); mkItem (Fin 2) (Fin 2) (Fin 1);
     mkItem (Fin 3) (Fin 1) (Fin 3)]
  = [mkItem (Fin 1) (Fin 1) (Fin 1); mkItem (Fin 2) (Fin 2) (Fin 1);
     mkItem (Fin 3) (Fin 1) (Fin 3)].
Proof.
  apply adversarial_order_keeps_ascending.
  repeat constructor; apply le_fin; lra.
Defined.

(** X14: for the same arrays drawn, the items of a trial with and without
    [adverserial] are reorderings of each other, and the offline optimizer
    returns the same value on both. *)
Theorem adversarial_same_offline (weights densities : list num) (max_weight : R)
    (res : num) :
  offline_knapsack (Driver.trial_items weights densities false) max_weight res ->
  Permutation (Driver.trial_items weights densities false)
              (Driver.trial_items weights densities true)
  /\ offline_knapsack (Driver.trial_items weights densities true) max_weight res.
Proof.
  intros Hres.
  assert (Hperm : Permutation (Driver.trial_items weights densities false)
                              (Driver.trial_items weights densities true))
    by (unfold Driver.trial_items; apply sorted_by_ratio_permutation).
  split; [assumption |].
  pose proof (offline_knapsack_nonempty _ _ _ Hres) as Hne.
  destruct (offline_knapsack_inv _ _ _ Hres) as (m & -> & Hopt & Hvals & Hws).
  apply offline_knapsack_intro.
  - apply (permutation_nonempty _ _ Hperm). assumption.
  - apply (Permutation_Forall Hperm). assumption.
  - apply (Permutation_Forall Hperm). assumption.
  - apply (optimum_permutation _ _ _ _ Hperm). assumption.
Qed.

Lemma adversarial_same_offline_witness :
  Permutation (Driver.trial_items [Fin 1; Fin 1] [Fin 3; Fin 2] false)
              (Driver.trial_items [Fin 1; Fin 1] [Fin 3; Fin 2] true)
  /\ offline_knapsack (Driver.trial_items [Fin 1; Fin 1] [Fin 3; Fin 2] true) 2
       (Fin (- fold_right Rplus 0
                 (Spec.values (Driver.trial_items [Fin 1; Fin 1] [Fin 3; Fin 2] false)))).
Proof.
  apply adversarial_same_offline.
  apply offline_knapsack_intro.
  - discriminate.
  - repeat constructor; eexists; reflexivity.
  - repeat constructor; eexists; reflexivity.
  - apply optimum_all_fit; [repeat constructor; simpl; lra | simpl; lra].
Defined.

(** X15: the online algorithm depends on the order of arrival: there is a
    stream of valid items on which it returns 4 and on whose adversarial
    ordering it returns 2. *)
Theorem online_knapsack_order_sensitive :
  exists items,
    Forall (Spec.valid_item 1 5) items
    /\ online_knapsack items 1 5 1 = Ok (Fin 4)
    /\ online_knapsack (Driver.sorted_by_ratio items) 1 5 1 = Ok (Fin 2).
Proof.
  pose proof (beta_pos 1 5 1 ltac:(lra) ltac:(lra) ltac:(lra)) as Hb.
  assert (Hbeta : beta_of (5 / 1) 1 = Fin (Spec.beta 1 5 1)) by (apply beta_of_valid; lra).
  assert (Htake : forall v r, 1 < r ->
            step 1 1 (Fin (Spec.beta 1 5 1)) init (mkItem (Fin v) (Fin 1) (Fin r))
            = mkState (Fin 1) (Fin v)).
  { intros v r Hr. unfold step, init. rewrite accepts_below_beta by lra.
    assert (H1 : Rltb 1 r = true) by (apply Rltb_true; assumption).
    assert (H2 : Rleb (0 + 1) 1 = true) by (apply Rleb_true; lra).
    rewrite H1, H2. simpl. f_equal; f_equal; lra. }
  assert (Hfull : forall v t r,
            step 1 1 (Fin (Spec.beta 1 5 1)) (mkState (Fin 1) (Fin t))
              (mkItem (Fin v) (Fin 1) (Fin r))
            = mkState (Fin 1) (Fin t)).
  { intros v t r. unfold step, accepts. cbn [y weight]. simpl add. simpl leb.
    assert (H : Rleb (1 + 1) 1 = false) by (apply Rleb_false; lra).
    rewrite H, andb_false_r. reflexivity. }
  exists [mkItem (Fin 4) (Fin 1) (Fin 4); mkItem (Fin 2) (Fin 1) (Fin 2)].
  split; [| split].
  - constructor; [| constructor; [| constructor]].
    + split; [repeat split; eexists; reflexivity | simpl; lra].
    + split; [repeat split; eexists; reflexivity | simpl; lra].
  - unfold online_knapsack. rewrite py_div_nonzero by lra.
    cbv beta iota delta [bind]. rewrite Hbeta, !run_cons, Htake, Hfull by lra.
    reflexivity.
  - assert (Hsorted : Driver.sorted_by_ratio
                        [mkItem (Fin 4) (Fin 1) (Fin 4); mkItem (Fin 2) (Fin 1) (Fin 2)]
                      = [mkItem (Fin 2) (Fin 1) (Fin 2); mkItem (Fin 4) (Fin 1) (Fin 4)]).
    { cbn. assert (H : Rltb 2 4 = true) by (apply Rltb_true; lra).
      rewrite H. reflexivity. }
    rewrite Hsorted. unfold online_knapsack. rewrite py_div_nonzero by lra.
    cbv beta iota delta [bind]. rewrite Hbeta, !run_cons, Htake, Hfull by lra.
    reflexivity.
Qed.

(** ** The two ends of the density range *)

(** X18: when [p_min = p_max = d > 0] every valid item has ratio [d], which
    is not above the threshold: the online algorithm rejects the whole
    stream and returns 0, whatever the budget [>= 0]. *)
Theorem degenerate_valid_stream_rejected (items : list Item) (d max_weight : R) :
  0 < d -> 0 <= max_weight ->
  Forall (Spec.valid_item d d) items ->
  online_knapsack items d d max_weight = Ok (Fin 0).
Proof.
  intros Hd HW Hvalid.
  pose proof (beta_nonneg d d max_weight Hd (Rle_refl d) HW) as Hb.
  unfold online_knapsack. rewrite py_div_nonzero by lra.
  cbv beta iota delta [bind]. rewrite beta_of_valid by lra.
  rewrite run_floor; [reflexivity | assumption | assumption |].
  eapply Forall_impl; [| exact Hvalid]. cbv beta.
  intros item ((_ & _ & [r Hr]) & _ & Hrange). rewrite Hr in *. cbn [Spec.to_R] in Hrange.
  unfold gtb. simpl. apply Rltb_false. lra.
Qed.

Lemma degenerate_valid_stream_rejected_witness :
  online_knapsack [mkItem (Fin 2) (Fin 1) (Fin 2); mkItem (Fin 1) (Fin (1 / 2)) (Fin 2)] 2 2 5
  = Ok (Fin 0).
Proof.
  apply degenerate_valid_stream_rejected; try lra.
  constructor; [| constructor; [| constructor]].
  - split; [repeat split; eexists; reflexivity | simpl; lra].
  - split; [repeat split; eexists; reflexivity | simpl; lra].
Defined.

(** ** The budget of the offline optimizer *)

(** X20: a larger budget never lowers the offline optimum: if
    [offline_knapsack] returns [r] under [max_weight] and [r'] under
    [max_weight' >= max_weight] on the same items, then [-r <= -r']. *)
Theorem offline_knapsack_monotone_budget (items : list Item) (max_weight max_weight' : R)
    (res res' : num) :
  max_weight <= max_weight' ->
  offline_knapsack items max_weight res ->
  offline_knapsack items max_weight' res' ->
  Spec.le (neg res) (neg res').
Proof.
  intros HW Hres Hres'.
  destruct (offline_knapsack_inv _ _ _ Hres)
    as (m & -> & [(x & (Hlen & Hx & Hrow) & Hval) _] & _).
  destruct (offline_knapsack_inv _ _ _ Hres') as (m' & -> & [_ Hmax'] & _).
  assert (Hadm : Spec.admissible items max_weight' x).
  { split; [assumption | split; [assumption | lra]]. }
  specialize (Hmax' x Hadm). simpl. apply le_fin. lra.
Qed.

Lemma offline_knapsack_monotone_budget_witness :
  Spec.le (neg (Fin (- fold_right Rplus 0 (Spec.values scenario))))
          (neg (Fin (- fold_right Rplus 0 (Spec.values scenario)))).
Proof.
  apply (offline_knapsack_monotone_budget scenario 2 3).
  - lra.
  - apply offline_knapsack_intro.
    + discriminate.
    + repeat constructor; eexists; reflexivity.
    + repeat constructor; eexists; reflexivity.
    + apply optimum_all_fit; [repeat constructor; simpl; lra | simpl; lra].
  - apply offline_knapsack_intro.
    + discriminate.
    + repeat constructor; eexists; reflexivity.
    + repeat constructor; eexists; reflexivity.
    + apply optimum_all_fit; [repeat constructor; simpl; lra | simpl; lra].
Defined.

(** ** The outcomes of a trial of [test] *)

Lemma offline_knapsack_result_cases (items : list Item) (max_weight : R)
    (out : result (option num)) :
  offline_knapsack_result items max_weight out ->
  (items = [] /\ out = Raise ValueError)
  \/ (exists f, out = Ok (Some f) /\ offline_knapsack items max_weight f)
  \/ (items <> [] /\ out = Ok None /\ forall x, ~ Spec.admissible items max_weight x).
Proof.
  unfold offline_knapsack_result. intros H.
  destruct H as [Hc | f Hf | c' A' b' Hc HA Hb Hne Hinf].
  - left. split; [| reflexivity]. apply map_eq_nil in Hc. assumption.
  - right. left. exists f. split; [reflexivity | exact Hf].
  - right. right.
    destruct (objective_finite items c' Hc) as [-> _].
    destruct A' as [| a' [| ? ?]]; try discriminate HA.
    injection HA as HA. destruct (constraint_finite items a' HA) as [-> _].
    destruct b' as [| b0 [| ? ?]]; try discriminate Hb.
    injection Hb as <-.
    split; [| split; [reflexivity |]].
    + intros ->. apply Hne. reflexivity.
    + intros x Hx. apply (Hinf x). apply feasible_admissible. assumption.
Qed.

Lemma offline_knapsack_result_infeasible (items : list Item) (max_weight : R) :
  items <> [] ->
  Forall (fun item => Spec.finite (value item)) items ->
  Forall (fun item => Spec.finite (weight item)) items ->
  (forall x, ~ Spec.admissible items max_weight x) ->
  offline_knapsack_result items max_weight (Ok None).
Proof.
  intros Hne Hvals Hws Hnone. unfold offline_knapsack_result.
  apply LP.linprog_infeasible
    with (c' := map Ropp (Spec.values items)) (A' := [Spec.weights items]) (b' := [max_weight]).
  - apply finite_values. assumption.
  - cbn [map]. rewrite finite_weights by assumption. reflexivity.
  - reflexivity.
  - destruct items; [contradiction | discriminate].
  - intros x Hx. apply (Hnone x). apply feasible_admissible. assumption.
Qed.

(** Weights [>= 0] cannot stay within a negative budget. *)
Lemma negative_budget_not_admissible (items : list Item) (max_weight : R) (x : list R) :
  max_weight < 0 ->
  Forall (fun item => 0 <= Spec.to_R (weight item)) items ->
  ~ Spec.admissible items max_weight x.
Proof.
  intros HW Hws (_ & Hx & Hrow).
  assert (Hpos : Forall (fun a => 0 <= a) (Spec.weights items))
    by (unfold Spec.weights; apply Forall_map; assumption).
  pose proof (dot_nonneg _ x Hpos Hx). lra.
Qed.

(** The weight of every item of a trial is one of the weights drawn. *)
Lemma make_items_weights (P : num -> Prop) (values weights : list num) :
  Forall P weights ->
  Forall (fun item => P (weight item)) (Driver.make_items values weights).
Proof.
  intros Hws. revert values.
  induction Hws as [| w weights Hw _ IH]; intros [| v values]; cbn; constructor.
  - exact Hw.
  - apply IH.
Qed.

Lemma trial_items_weights (n : nat) (epsilon : R) (weights densities : list num)
    (adverserial : bool) :
  0 <= epsilon ->
  Driver.uniform 0 epsilon n weights ->
  Forall (fun item => 0 <= Spec.to_R (weight item))
         (Driver.trial_items weights densities adverserial).
Proof.
  intros Heps [_ Hws].
  assert (Hall : Forall (fun item => 0 <= Spec.to_R (weight item))
                   (Driver.make_items (Driver.times densities weights) weights)).
  { apply (make_items_weights (fun w => 0 <= Spec.to_R w)).
    eapply Forall_impl; [| exact Hws]. cbv beta.
    intros w (u & Hu & ->). cbn [Spec.to_R]. nra. }
  unfold Driver.trial_items. destruct adverserial; [| assumption].
  apply (Permutation_Forall (sorted_by_ratio_permutation _)). assumption.
Qed.

(** What a trial ends in, by the number of items and the sign of the
    budget. *)
Lemma trial_cases (n : nat) (epsilon max_weight p_min p_max : R) (adverserial : bool)
    (r : result (num * num)) :
  Driver.trial n epsilon max_weight p_min p_max adverserial r ->
  (n = 0%nat -> r = Raise ValueError)
  /\ (n <> 0%nat -> max_weight < 0 -> 0 <= epsilon -> r = Raise TypeError)
  /\ (n <> 0%nat -> 0 <= max_weight ->
      exists items f,
        r = (online <- online_knapsack items p_min p_max max_weight ;;
             Ok (neg f, online))).
Proof.
  intros Htrial. destruct Htrial as [weights densities out Hws Hds Hout].
  pose proof (trial_items_length n _ _ _ _ weights densities adverserial Hws Hds) as Hlen.
  set (items := Driver.trial_items weights densities adverserial) in *.
  destruct (offline_knapsack_result_cases items max_weight out Hout)
    as [[Hnil ->] | [(f & -> & Hf) | (Hne & -> & Hnone)]].
  - rewrite Hnil in Hlen. cbn in Hlen. cbn.
    split; [reflexivity | split; intros Hn; exfalso; apply Hn; congruence].
  - pose proof (offline_knapsack_nonempty _ _ _ Hf) as Hne.
    split; [| split].
    + intros ->. exfalso. apply Hne. apply length_zero_iff_nil. assumption.
    + intros _ HW Heps. exfalso.
      destruct (offline_knapsack_inv _ _ _ Hf) as (m & _ & [(x & Hx & _) _] & _).
      apply (negative_budget_not_admissible items max_weight x HW); [| assumption].
      apply (trial_items_weights n epsilon); assumption.
    + intros _ _. exists items, f. reflexivity.
  - split; [| split].
    + intros ->. exfalso. apply Hne. apply length_zero_iff_nil. assumption.
    + intros _ _ _. reflexivity.
    + intros _ HW. exfalso.
      apply (Hnone (repeat 0 (length items))). apply admissible_zero. assumption.
Qed.

Lemma combine_repeat (A B : Type) (a : A) (b : B) (n : nat) :
  combine (repeat a n) (repeat b n) = repeat (a, b) n.
Proof. induction n as [| n IH]; cbn; [reflexivity | rewrite IH; reflexivity]. Qed.

Lemma sum_zeros (l : list R) : Forall (fun a => a = 0) l -> fold_right Rplus 0 l = 0.
Proof. induction 1 as [| a l Ha _ IH]; cbn; lra. Qed.

(** Whatever the parameters, a trial has an outcome: the arrays can be
    drawn (here with every [u = 0]) and the calls end. *)
Lemma trial_exists (n : nat) (epsilon max_weight p_min p_max : R) (adverserial : bool) :
  exists r, Driver.trial n epsilon max_weight p_min p_max adverserial r.
Proof.
  set (weights := repeat (Fin (0 + (epsilon - 0) * 0)) n).
  set (densities := repeat (Fin (p_min + (p_max - p_min) * 0)) n).
  assert (Hws : Driver.uniform 0 epsilon n weights).
  { split; [apply repeat_length |]. apply Forall_forall. intros x Hx.
    apply repeat_spec in Hx. exists 0. split; [lra | assumption]. }
  assert (Hds : Driver.uniform p_min p_max n densities).
  { split; [apply repeat_length |]. apply Forall_forall. intros x Hx.
    apply repeat_spec in Hx. exists 0. split; [lra | assumption]. }
  pose proof (trial_items_length n _ _ _ _ weights densities adverserial Hws Hds) as Hlen.
  assert (Hzero : Forall (fun item => exists v w, value item = Fin v /\ weight item = Fin w
                                                  /\ v = 0 /\ w = 0)
                    (Driver.trial_items weights densities adverserial)).
  { assert (Hmake : Forall (fun item => exists v w, value item = Fin v /\ weight item = Fin w
                                                    /\ v = 0 /\ w = 0)
                      (Driver.make_items (Driver.times densities weights) weights)).
    { unfold Driver.make_items, Driver.times, weights, densities.
      rewrite combine_repeat, map_repeat, combine_repeat, map_repeat.
      apply Forall_forall. intros item Hitem. apply repeat_spec in Hitem. subst item.
      cbn [fst snd value weight mul]. eexists. eexists.
      split; [reflexivity | split; [reflexivity | split; ring]]. }
    unfold Driver.trial_items. destruct adverserial; [| assumption].
    apply (Permutation_Forall (sorted_by_ratio_permutation _)). assumption. }
  set (items := Driver.trial_items weights densities adverserial) in *.
  assert (Hvals : Forall (fun item => Spec.finite (value item)) items).
  { eapply Forall_impl; [| exact Hzero]. cbv beta.
    intros item (v & w & Hv & _). exists v. assumption. }
  assert (Hfin : Forall (fun item => Spec.finite (weight item)) items).
  { eapply Forall_impl; [| exact Hzero]. cbv beta.
    intros item (v & w & _ & Hw & _). exists w. assumption. }
  assert (Hout : exists out, offline_knapsack_result items max_weight out).
  { destruct items as [| item items'] eqn:Hitems.
    - exists (Raise ValueError). apply LP.linprog_no_variable. reflexivity.
    - rewrite <- Hitems in *.
      assert (Hne : items <> []) by (rewrite Hitems; discriminate).
      destruct (Rle_dec 0 max_weight) as [HW | HW].
      + exists (Ok (Some (Fin (- fold_right Rplus 0 (Spec.values items))))).
        apply LP.linprog_success. apply offline_knapsack_intro; try assumption.
        apply optimum_all_fit.
        * eapply Forall_impl; [| exact Hzero]. cbv beta.
          intros i (v & w & -> & _ & -> & _). cbn. lra.
        * rewrite sum_zeros; [assumption |].
          unfold Spec.weights. apply Forall_map.
          eapply Forall_impl; [| exact Hzero]. cbv beta.
          intros i (v & w & _ & -> & _ & ->). reflexivity.
      + exists (Ok None). apply offline_knapsack_result_infeasible; try assumption.
        intros x. apply negative_budget_not_admissible; [lra |].
        eapply Forall_impl; [| exact Hzero]. cbv beta.
        intros i (v & w & _ & -> & _ & ->). cbn. lra. }
  destruct Hout as [out Hout]. eexists.
  apply (Driver.trial_run n epsilon max_weight p_min p_max adverserial weights densities out);
    assumption.
Qed.

(** C5, as amended: neither the online algorithm nor the experiment loop
    checks a parameter, and no failure of theirs is a [DomainError].  The
    only failure of [online_knapsack] is Python's [ZeroDivisionError] of
    [p_max / p_min] when [p_min = 0]; for any other parameters and items,
    valid or not, it runs the loop and returns a value.  A trial of [test]
    with [p_min <> 0], within the range where the draws and their products
    do not overflow, always has an outcome: with [n = 0] the [ValueError]
    that [linprog] raises on a program without variables, with a negative
    [max_weight] (and [n > 0], [epsilon >= 0]) the [TypeError] of negating
    the [None] of an infeasible program, and with [n > 0] and
    [max_weight >= 0] its pair of results. *)
Theorem online_knapsack_no_validation (items : list Item) (p_min p_max max_weight : R) :
  p_min <> 0 ->
  (exists v, online_knapsack items p_min p_max max_weight = Ok v)
  /\ online_knapsack items 0 p_max max_weight = Raise ZeroDivisionError
  /\ (forall n epsilon adverserial,
        Binary64.draws_computed epsilon p_min p_max ->
        (exists r, Driver.trial n epsilon max_weight p_min p_max adverserial r)
        /\ (forall r,
              Driver.trial n epsilon max_weight p_min p_max adverserial r ->
              (n = 0%nat -> r = Raise ValueError)
              /\ (n <> 0%nat -> max_weight < 0 -> 0 <= epsilon -> r = Raise TypeError)
              /\ (n <> 0%nat -> 0 <= max_weight ->
                  exists offline online, r = Ok (offline, online)))).
Proof.
  intros Hmin. split; [| split].
  - apply online_knapsack_returns. assumption.
  - apply online_knapsack_zero_p_min.
  - intros n epsilon adverserial _. split; [apply trial_exists |].
    intros r Htrial.
    destruct (trial_cases _ _ _ _ _ _ _ Htrial) as (H0 & Hneg & Hrun).
    split; [assumption | split; [assumption |]].
    intros Hn HW. destruct (Hrun Hn HW) as (items' & f & ->).
    destruct (online_knapsack_returns items' p_min p_max max_weight Hmin) as [v ->].
    exists (neg f), v. reflexivity.
Qed.

Lemma online_knapsack_no_validation_witness :
  (exists v, online_knapsack [mkItem (Fin 1) (Fin (-1)) (Fin (-1))] (-1) (-2) (-1) = Ok v)
  /\ online_knapsack [mkItem (Fin 1) (Fin (-1)) (Fin (-1))] 0 (-2) (-1)
     = Raise ZeroDivisionError
  /\ (forall n epsilon adverserial,
        Binary64.draws_computed epsilon (-1) (-2) ->
        (exists r, Driver.trial n epsilon (-1) (-1) (-2) adverserial r)
        /\ (forall r,
              Driver.trial n epsilon (-1) (-1) (-2) adverserial r ->
              (n = 0%nat -> r = Raise ValueError)
              /\ (n <> 0%nat -> -1 < 0 -> 0 <= epsilon -> r = Raise TypeError)
              /\ (n <> 0%nat -> 0 <= -1 ->
                  exists offline online, r = Ok (offline, online)))).
Proof. apply online_knapsack_no_validation. lra. Defined.

Lemma trial_zero_p_min (n : nat) (epsilon max_weight p_max : R) (adverserial : bool)
    (r : result (num * num)) :
  n <> 0%nat -> 0 <= max_weight ->
  Driver.trial n epsilon max_weight 0 p_max adverserial r ->
  r = Raise ZeroDivisionError.
Proof.
  intros Hn HW Htrial.
  destruct (trial_cases _ _ _ _ _ _ _ Htrial) as (_ & _ & Hrun).
  destruct (Hrun Hn HW) as (items & f & ->).
  rewrite online_knapsack_zero_p_min. reflexivity.
Qed.

Lemma loop_zero_p_min (n : nat) (epsilon max_weight p_max : R) (adverserial : bool)
    (k : nat) (offs ons : list num) (r : result (list num * list num)) :
  n <> 0%nat -> 0 <= max_weight ->
  Experiment.loop n epsilon max_weight 0 p_max adverserial (S k) offs ons r ->
  r = Raise ZeroDivisionError.
Proof.
  intros Hn HW Hloop.
  inversion Hloop as [| ? ? ? e Htrial | ? ? ? offline online ? Htrial _]; subst.
  - pose proof (trial_zero_p_min _ _ _ _ _ _ Hn HW Htrial) as Heq.
    injection Heq as ->. reflexivity.
  - pose proof (trial_zero_p_min _ _ _ _ _ _ Hn HW Htrial) as Heq. discriminate Heq.
Qed.

(** X17: with [p_min = 0], at least one item per trial, [max_weight >= 0]
    and draws that do not overflow, [test] returns no averages: whatever is
    drawn, it
    ends in its first trial with the [ZeroDivisionError] of
    [p_max / p_min], raised by [online_knapsack] after the offline
    optimizer has returned. *)
Theorem test_zero_p_min_raises (n : nat) (epsilon max_weight p_max : R)
    (adverserial : bool) (r : result (num * num)) :
  n <> 0%nat -> 0 <= max_weight ->
  Binary64.draws_computed epsilon 0 p_max ->
  Experiment.test n epsilon max_weight 0 p_max adverserial r ->
  r = Raise ZeroDivisionError.
Proof.
  intros Hn HW _ (lists & Hloop & ->).
  rewrite (loop_zero_p_min _ _ _ _ _ _ _ _ _ Hn HW Hloop). reflexivity.
Qed.

Lemma test_zero_p_min_raises_witness :
  exists r,
    Experiment.test 1 (5 / 100) 1 0 4 false r /\ r = Raise ZeroDivisionError.
Proof.
  destruct (trial_exists 1 (5 / 100) 1 0 4 false) as [r0 Htrial].
  assert (Hn : 1%nat <> 0%nat) by discriminate.
  assert (HW : 0 <= 1) by lra.
  rewrite (trial_zero_p_min _ _ _ _ _ _ Hn HW Htrial) in Htrial.
  assert (Htest : Experiment.test 1 (5 / 100) 1 0 4 false (Raise ZeroDivisionError)).
  { exists (Raise ZeroDivisionError). split; [| reflexivity].
    apply Experiment.loop_raise. exact Htrial. }
  eexists. split; [exact Htest |].
  apply (test_zero_p_min_raises 1 (5 / 100) 1 4 false); try assumption.
  apply draws_computed_small; lra.
Defined.
